(** * OrangeHRM UI automation harness: a shallow embedding

    The development follows the Python sources:
    - [utilities/readproperties.py]  (module [ReadConfig]),
    - [utilities/random_data.py]     (module [RandomData]),
    - [pageobjects/base_page.py]     (module [BasePage]).

    Python [str] values are modelled by [string]; the character predicates
    ([isspace], [isalpha], [lower]) are the ones of the ASCII range, code
    points above 127 are left untouched by them.  Python exceptions are
    modelled by an error monad over an explicit state; the browser, the
    clock, the process environment and the entropy sources are oracles the
    theorems quantify over. *)

From Stdlib Require Import ZArith Ascii String List Bool Lia.
From stdpp Require Import base option list strings gmap pretty.

Open Scope string_scope.
Open Scope Z_scope.

(** ** Python string primitives *)

Module PyStr.

(** [c in chars], for a character and a string used as a set. *)
Fixpoint mem (c : ascii) (chars : string) : bool :=
  match chars with
  | EmptyString => false
  | String d chars' => Ascii.eqb c d || mem c chars'
  end.

(** [s.startswith(p)] *)
Fixpoint startswith (p s : string) : bool :=
  match p, s with
  | EmptyString, _ => true
  | String a p', String b s' => Ascii.eqb a b && startswith p' s'
  | String _ _, EmptyString => false
  end.

(** [s.startswith((p1, p2, ...))]: a tuple of prefixes *)
Definition startswith_any (ps : list string) (s : string) : bool :=
  existsb (fun p => startswith p s) ps.

(** [s.endswith(p)], for a one-character [p] *)
Fixpoint ends_with_char (c : ascii) (s : string) : bool :=
  match s with
  | EmptyString => false
  | String a EmptyString => Ascii.eqb a c
  | String _ s' => ends_with_char c s'
  end.

(** [s.lstrip(chars)] *)
Fixpoint lstrip (chars : string) (s : string) : string :=
  match s with
  | EmptyString => EmptyString
  | String c s' => if mem c chars then lstrip chars s' else s
  end.

(** [s.rstrip(chars)] *)
Fixpoint rstrip (chars : string) (s : string) : string :=
  match s with
  | EmptyString => EmptyString
  | String c s' =>
      match rstrip chars s' with
      | EmptyString => if mem c chars then EmptyString else String c EmptyString
      | r => String c r
      end
  end.

(** The characters [str.isspace] accepts below code point 128. *)
Definition whitespace : string :=
  String "009" (String "010" (String "011" (String "012" (String "013"
  (String "028" (String "029" (String "030" (String "031" " ")))))))).

(** [s.strip()] *)
Definition strip (s : string) : string := rstrip whitespace (lstrip whitespace s).

(** [t in s], substring test *)
Fixpoint contains (t s : string) : bool :=
  startswith t s ||
  match s with
  | EmptyString => false
  | String _ s' => contains t s'
  end.

(** Truthiness of a [str]. *)
Definition truthy (s : string) : bool := negb (String.eqb s "").

(** [x or ""] for [x : Optional[str]] *)
Definition opt_or_empty (x : option string) : string :=
  match x with Some v => v | None => "" end.

(** [a or b] on strings *)
Definition or_else (a b : string) : string := if truthy a then a else b.

(** All characters of [s] satisfy [p]. *)
Fixpoint all (p : ascii -> bool) (s : string) : bool :=
  match s with
  | EmptyString => true
  | String c s' => p c && all p s'
  end.

(** [''.join(l)] for a list of characters *)
Definition join (l : list ascii) : string := string_of_list_ascii l.

(** Indexing [s[i]], total: only used below the length. *)
Definition get_char (s : string) (i : nat) : ascii :=
  match String.get i s with Some c => c | None => "000"%char end.

Definition is_digit (c : ascii) : bool := mem c "0123456789".
Definition is_nonzero_digit (c : ascii) : bool := mem c "123456789".

Definition is_upper (c : ascii) : bool :=
  let n := nat_of_ascii c in (65 <=? n)%nat && (n <=? 90)%nat.
Definition is_lower (c : ascii) : bool :=
  let n := nat_of_ascii c in (97 <=? n)%nat && (n <=? 122)%nat.
(** [ch.isalpha()] *)
Definition isalpha (c : ascii) : bool := is_upper c || is_lower c.
(** [ch.lower()] *)
Definition lower_char (c : ascii) : ascii :=
  if is_upper c then ascii_of_nat (nat_of_ascii c + 32) else c.

Fixpoint map (f : ascii -> ascii) (s : string) : string :=
  match s with
  | EmptyString => EmptyString
  | String c s' => String (f c) (map f s')
  end.

Fixpoint filter (p : ascii -> bool) (s : string) : string :=
  match s with
  | EmptyString => EmptyString
  | String c s' => if p c then String c (filter p s') else filter p s'
  end.

(** [s.lower()] *)
Definition lower (s : string) : string := map lower_char s.

(** [s[:n]], with Python's reading of a negative bound *)
Definition slice_to (s : string) (n : Z) : string :=
  let len := Z.of_nat (String.length s) in
  let stop := if n <? 0 then Z.max 0 (len + n) else Z.min n len in
  String.substring 0 (Z.to_nat stop) s.

Fixpoint repeat_char (c : ascii) (n : nat) : string :=
  match n with
  | O => EmptyString
  | S n' => String c (repeat_char c n')
  end.

(** [s.ljust(width, fill)] *)
Definition ljust (s : string) (width : Z) (fill : ascii) : string :=
  s ++ repeat_char fill (Z.to_nat (width - Z.of_nat (String.length s))).

End PyStr.

(** ** Exceptions and the state-and-error monad *)

(** The exception classes the sources raise or catch.  All of them derive
    from [Exception]; [TimeoutException] derives from
    [WebDriverException]. *)
Inductive exn : Type :=
| ValueError (msg : string)
| RuntimeError (msg : string)
| AssertionError (msg : string)
| FileNotFoundError (msg : string)
| IndexError
| TimeoutException
| WebDriverException
| OtherException.

Definition is_TimeoutException (e : exn) : bool :=
  match e with TimeoutException => true | _ => false end.

Definition is_WebDriverException (e : exn) : bool :=
  match e with TimeoutException | WebDriverException => true | _ => false end.

Definition is_Exception (e : exn) : bool := true.

Inductive Res (A : Type) : Type :=
| Ok (a : A)
| Raise (e : exn).
Arguments Ok {A} a.
Arguments Raise {A} e.

Definition res_map {A B} (f : A -> B) (r : Res A) : Res B :=
  match r with Ok a => Ok (f a) | Raise e => Raise e end.

Definition M (S A : Type) : Type := S -> Res A * S.

Definition ret {S A} (a : A) : M S A := fun s => (Ok a, s).

Definition bind {S A B} (m : M S A) (k : A -> M S B) : M S B :=
  fun s => match m s with
           | (Ok a, s') => k a s'
           | (Raise e, s') => (Raise e, s')
           end.

Definition raise {S A} (e : exn) : M S A := fun s => (Raise e, s).

(** [try: m  except cls: h] *)
Definition try_except {S A} (m : M S A) (cls : exn -> bool) (h : exn -> M S A) : M S A :=
  fun s => match m s with
           | (Ok a, s') => (Ok a, s')
           | (Raise e, s') => if cls e then h e s' else (Raise e, s')
           end.

Declare Scope py_scope.
Delimit Scope py_scope with py.
Notation "x <- m ;; k" := (bind m (fun x => k))
  (at level 100, m at next level, right associativity) : py_scope.
Notation "m ;;; k" := (bind m (fun _ => k))
  (at level 100, right associativity) : py_scope.
Open Scope py_scope.

(** ** utilities/readproperties.py *)

Module ReadConfig.

(** A parsed [config.ini]: section name to option name to value.
    [configparser] itself is outside the repository; only its lookup
    is modelled, as it is for a value without [%].  What [get] makes of a
    value that holds [%] (a substitution, or a fault) is not modelled: the
    statements that return a value of the file ask for a value without it.
    Nor is the class attribute [_config_path], which [_ensure_loaded]
    assigns before it looks for the file; no statement speaks of it. *)
Abbreviation Parser := (gmap string (gmap string string)).

(** What [ReadConfig] can see of the process: [os.environ], the file
    [configuration/config.ini] under the working directory ([None] when
    it does not exist), and the class attribute [_config]. *)
Record Sys : Type := {
  environ : gmap string string;
  config_ini : option Parser;
  _config : option Parser
}.

Definition set_config (p : option Parser) (s : Sys) : Sys :=
  {| environ := environ s; config_ini := config_ini s; _config := p |}.

(** [os.getenv(name)] *)
Definition getenv (name : string) : M Sys (option string) :=
  fun s => (Ok (environ s !! name), s).

(** [os.getenv(name, default)] *)
Definition getenv_default (name default : string) : M Sys string :=
  fun s => (Ok (match environ s !! name with Some v => v | None => default end), s).

Definition _ensure_loaded : M Sys unit :=
  fun s =>
    match _config s with
    | Some _ => (Ok tt, s)
    | None =>
        match config_ini s with
        | None => (Raise (FileNotFoundError "Config file not found"), s)
        | Some parser => (Ok tt, set_config (Some parser) s)
        end
    end.

(** [parser.get(section, key, fallback=fallback)]: a missing section or
    option yields the fallback. *)
Definition parser_get (p : Parser) (section key : string) (fallback : option string)
  : option string :=
  match p !! section with
  | Some opts => match opts !! key with Some v => Some v | None => fallback end
  | None => fallback
  end.

Definition _get_raw (section key : string) (fallback : option string)
  : M Sys (option string) :=
  _ensure_loaded ;;;
  fun s =>
    match _config s with
    | Some p => (Ok (parser_get p section key fallback), s)
    | None => (Raise (AssertionError ""), s)
    end.

(** Truthiness of [env_var : Optional[str]] *)
Definition env_var_given (env_var : option string) : option string :=
  match env_var with
  | Some v => if PyStr.truthy v then Some v else None
  | None => None
  end.

Definition get (section key : string) (fallback env_var : option string)
  : M Sys (option string) :=
  match env_var_given env_var with
  | Some v =>
      val <- getenv v ;;
      match val with
      | Some x => ret (Some x)
      | None => _get_raw section key fallback
      end
  | None => _get_raw section key fallback
  end.

Definition get_user_login_url : M Sys string :=
  v <- get "common info" "user_login_url" None (Some "ADMIN_LOGIN_URL") ;; ret (PyStr.opt_or_empty v).

Definition get_user_email : M Sys string :=
  v <- get "common info" "user_email" None (Some "ADMIN_EMAIL") ;; ret (PyStr.opt_or_empty v).

Definition get_user_password : M Sys string :=
  v <- get "common info" "user_password" None (Some "ADMIN_PASSWORD") ;; ret (PyStr.opt_or_empty v).

Definition get_search_item_name : M Sys string :=
  v <- get "common info" "search_item" None None ;; ret (PyStr.opt_or_empty v).

Definition get_emp_initial_name : M Sys string :=
  v <- get "common info" "pim_emp_name" None (Some "ADMIN_PASSWORD") ;; ret (PyStr.opt_or_empty v).

(** The recognised settings and the getter of each. *)
Inductive Key : Type :=
| LoginUrl | UserEmail | UserPassword | SearchItem | EmpInitialName.

Definition lookup (k : Key) : M Sys string :=
  match k with
  | LoginUrl => get_user_login_url
  | UserEmail => get_user_email
  | UserPassword => get_user_password
  | SearchItem => get_search_item_name
  | EmpInitialName => get_emp_initial_name
  end.

(** The option of [config.ini] a setting is stored under. *)
Definition option_name (k : Key) : string :=
  match k with
  | LoginUrl => "user_login_url"
  | UserEmail => "user_email"
  | UserPassword => "user_password"
  | SearchItem => "search_item"
  | EmpInitialName => "pim_emp_name"
  end.

(** The value the loaded file holds for a setting. *)
Definition file_value (p : Parser) (k : Key) : option string :=
  parser_get p "common info" (option_name k) None.

End ReadConfig.

(** ** utilities/random_data.py *)

Module RandomData.

(** The entropy the module consumes: the integers behind
    [secrets.SystemRandom] and [random], and the names [Faker] hands out.
    Each draw moves the cursor of its stream. *)
Record Entropy : Type := {
  draws : nat -> N;
  cursor : nat;
  names : nat -> string;
  name_cursor : nat
}.

(** An index below [n], for [n > 0]. *)
Definition randbelow (n : nat) : M Entropy nat :=
  fun g =>
    (Ok (N.to_nat (draws g (cursor g)) mod n)%nat,
     {| draws := draws g; cursor := S (cursor g);
        names := names g; name_cursor := name_cursor g |}).

Definition faker_name : M Entropy string :=
  fun g =>
    (Ok (names g (name_cursor g)),
     {| draws := draws g; cursor := cursor g;
        names := names g; name_cursor := S (name_cursor g) |}).

Definition first_name : M Entropy string := faker_name.
Definition middle_name : M Entropy string := faker_name.
Definition last_name : M Entropy string := faker_name.

Definition digits : string := "0123456789".
Definition ascii_uppercase : string := "ABCDEFGHIJKLMNOPQRSTUVWXYZ".
Definition ascii_lowercase : string := "abcdefghijklmnopqrstuvwxyz".
Definition ascii_letters : string := ascii_lowercase ++ ascii_uppercase.

(** [rng.choice(seq)]: an empty sequence raises [IndexError]. *)
Definition choice (seq : string) : M Entropy ascii :=
  match String.length seq with
  | O => raise IndexError
  | n => i <- randbelow n ;; ret (PyStr.get_char seq i)
  end.

(** [[rng.choice(seq) for _ in range(k)]] *)
Fixpoint choice_list (seq : string) (k : nat) : M Entropy (list ascii) :=
  match k with
  | O => ret []
  | S k' => c <- choice seq ;; cs <- choice_list seq k' ;; ret (c :: cs)
  end.

(** [random.choices(population, k=k)]: nothing is drawn for [k <= 0]. *)
Definition choices (population : string) (k : Z) : M Entropy (list ascii) :=
  choice_list population (Z.to_nat k).

Definition employee_id (length : Z) (allow_leading_zero : bool) : M Entropy string :=
  if allow_leading_zero then
    cs <- choice_list digits (Z.to_nat length) ;; ret (PyStr.join cs)
  else
    first <- choice "123456789" ;;
    rest <- (if 1 <? length
             then cs <- choice_list digits (Z.to_nat (length - 1)) ;; ret (PyStr.join cs)
             else ret "") ;;
    ret (String first rest).

Definition username_from_name (first : string) (middle : option string) (last : string)
    (length : Z) : string :=
  let base := PyStr.lower (first ++ PyStr.opt_or_empty middle ++ last) in
  let base := PyStr.filter PyStr.isalpha base in
  PyStr.ljust (PyStr.slice_to base length) length "x".

(** [x[i], x[j] = x[j], x[i]] *)
Definition swap (x : list ascii) (i j : nat) : list ascii :=
  match x !! i, x !! j with
  | Some a, Some b => <[j := a]> (<[i := b]> x)
  | _, _ => x
  end.

(** [random.shuffle(x)]: [for i in reversed(range(1, len(x)))], with
    [i] the index the loop is at. *)
Fixpoint shuffle_from (i : nat) (x : list ascii) : M Entropy (list ascii) :=
  match i with
  | O => ret x
  | S i' => j <- randbelow (S i) ;; shuffle_from i' (swap x i j)
  end.

Definition shuffle (x : list ascii) : M Entropy (list ascii) :=
  shuffle_from (List.length x - 1) x.

Definition password (length min_upper min_lower min_digits min_special : Z)
    (specials : string) : M Entropy string :=
  a <- choices ascii_uppercase min_upper ;;
  b <- choices ascii_lowercase min_lower ;;
  c <- choices digits min_digits ;;
  d <- choices specials min_special ;;
  let pool := (a ++ b ++ c ++ d)%list in
  let remaining := length - Z.of_nat (List.length pool) in
  e <- choices (ascii_letters ++ digits ++ specials) remaining ;;
  pool <- shuffle (pool ++ e)%list ;;
  ret (PyStr.join pool).

(** The [dict] the generator returns, keyed by field name. *)
Definition generate_employee_with_credentials (id_length username_length password_length : Z)
  : M Entropy (gmap string string) :=
  f <- first_name ;;
  m <- middle_name ;;
  l <- last_name ;;
  eid <- employee_id id_length false ;;
  let uname := username_from_name f (Some m) l username_length in
  pwd <- password password_length 1 1 1 1 "!@#$%" ;;
  ret (<["confirm_password" := pwd]> (<["password" := pwd]> (<["username" := uname]>
      (<["employee_id" := eid]> (<["last_name" := l]> (<["middle_name" := m]>
      (<["first_name" := f]> ∅))))))).

End RandomData.

(** ** pageobjects/base_page.py *)

Module BasePage.

Definition Locator : Type := string * string.

(** A [WebElement] handle, as the session names it. *)
Definition WebElement : Type := N.

(** Arguments of [send_keys]: literal text or a member of [Keys]. *)
Inductive Key : Type :=
| Text (s : string)
| CONTROL | DELETE | ENTER | TAB.

(** The expected conditions the page object waits on. *)
Inductive Condition : Type :=
| presence_of_element_located
| visibility_of_element_located
| element_to_be_clickable.

Inductive JsArg : Type :=
| ArgElement (el : WebElement)
| ArgStr (s : string).

(** Every call that leaves the page object, as it appears in the log. *)
Inductive Call : Type :=
| CGet (url : string)
| CExecuteScript (script : string) (args : list JsArg)
| CFindElements (loc : Locator)
| CSaveScreenshot (fname : string)
| CWaitReadyState (t : Z)
| CWaitUntil (c : Condition) (loc : Locator) (t : Z)
| CClick (el : WebElement)
| CClear (el : WebElement)
| CSendKeys (el : WebElement) (keys : list Key)
| CGetAttribute (el : WebElement) (name : string)
| CText (el : WebElement)
| CSleep (ms : Z).

Inductive Value : Type :=
| VNone
| VBool (b : bool)
| VStr (s : string)
| VOptStr (o : option string)
| VElement (el : WebElement)
| VElements (l : list WebElement).

Record Event : Type := { ev_call : Call; ev_result : Res Value }.

(** A reply of the session: the outcome, the milliseconds the call took
    and the next state of the browser. *)
Definition Reply (A B : Type) : Type := Res A * N * B.

(** The selenium session over a browser state [B], with the two
    formatting functions of the Python runtime the page object uses.
    [WebDriverWait(driver, t).until(cond)] is a call of the session:
    [wait_ready_state] for the [document.readyState] condition,
    [wait_until] for an expected condition on a locator. *)
Record Driver (B : Type) : Type := {
  drv_get : string -> B -> Reply unit B;
  drv_execute_script : string -> list JsArg -> B -> Reply unit B;
  drv_find_elements : Locator -> B -> Reply (list WebElement) B;
  drv_save_screenshot : string -> B -> Reply bool B;
  wait_ready_state : Z -> B -> Reply unit B;
  wait_until : Condition -> Locator -> Z -> B -> Reply WebElement B;
  el_click : WebElement -> B -> Reply unit B;
  el_clear : WebElement -> B -> Reply unit B;
  el_send_keys : WebElement -> list Key -> B -> Reply unit B;
  el_get_attribute : WebElement -> string -> B -> Reply (option string) B;
  el_text : WebElement -> B -> Reply string B;
  repr_locator : Locator -> string;
  strftime : Z -> string
}.
Arguments drv_get {B}.
Arguments drv_execute_script {B}.
Arguments drv_find_elements {B}.
Arguments drv_save_screenshot {B}.
Arguments wait_ready_state {B}.
Arguments wait_until {B}.
Arguments el_click {B}.
Arguments el_clear {B}.
Arguments el_send_keys {B}.
Arguments el_get_attribute {B}.
Arguments el_text {B}.
Arguments repr_locator {B}.
Arguments strftime {B}.

(** A page object: [self.driver] and [self.default_timeout] (seconds). *)
Record Page (B : Type) : Type := {
  driver : Driver B;
  default_timeout : Z
}.
Arguments driver {B}.
Arguments default_timeout {B}.

(** The world a call runs in: the clock in milliseconds, the log of the
    calls made so far (oldest first), the browser, and the process state
    [ReadConfig] reads. *)
Record World (B : Type) : Type := {
  clock : Z;
  trace : list Event;
  browser : B;
  sys : ReadConfig.Sys
}.
Arguments clock {B}.
Arguments trace {B}.
Arguments browser {B}.
Arguments sys {B}.

Section Primitives.
Context {B : Type}.

(** One call of the session: the clock advances by the time it took and
    the call is logged with its outcome. *)
Definition invoke {A} (c : Call) (inj : A -> Value) (op : B -> Reply A B) : M (World B) A :=
  fun w =>
    let '(r, d, b') := op (browser w) in
    (r, {| clock := clock w + Z.of_N d;
           trace := trace w ++ [{| ev_call := c; ev_result := res_map inj r |}];
           browser := b';
           sys := sys w |}).

(** [time.time()], in milliseconds *)
Definition time : M (World B) Z := fun w => (Ok (clock w), w).

(** [time.sleep(ms / 1000)] *)
Definition sleep (ms : Z) : M (World B) unit :=
  fun w =>
    (Ok tt, {| clock := clock w + ms;
               trace := trace w ++ [{| ev_call := CSleep ms; ev_result := Ok VNone |}];
               browser := browser w;
               sys := sys w |}).

(** A computation of [ReadConfig], run on the process state of the world. *)
Definition lift_sys {A} (m : M ReadConfig.Sys A) : M (World B) A :=
  fun w =>
    let '(r, s') := m (sys w) in
    (r, {| clock := clock w; trace := trace w; browser := browser w; sys := s' |}).

End Primitives.

Section Methods.
Context {B : Type} (self : Page B).

Let W : Type := World B.
Let drv : Driver B := driver self.

Definition timeout_or_default (timeout : option Z) : Z :=
  match timeout with Some t => t | None => default_timeout self end.

(** [int(time.time())], formatted in an f-string *)
Definition epoch_seconds : M W string :=
  now <- time ;; ret (pretty (now / 1000)).

Definition d_get (url : string) : M W unit :=
  invoke (CGet url) (fun _ => VNone) (drv_get drv url).
Definition d_execute_script (script : string) (args : list JsArg) : M W unit :=
  invoke (CExecuteScript script args) (fun _ => VNone) (drv_execute_script drv script args).
Definition d_find_elements (loc : Locator) : M W (list WebElement) :=
  invoke (CFindElements loc) VElements (drv_find_elements drv loc).
Definition d_save_screenshot (fname : string) : M W bool :=
  invoke (CSaveScreenshot fname) VBool (drv_save_screenshot drv fname).
Definition w_ready_state (t : Z) : M W unit :=
  invoke (CWaitReadyState t) (fun _ => VNone) (wait_ready_state drv t).
Definition w_until (c : Condition) (loc : Locator) (t : Z) : M W WebElement :=
  invoke (CWaitUntil c loc t) VElement (wait_until drv c loc t).
Definition e_click (el : WebElement) : M W unit :=
  invoke (CClick el) (fun _ => VNone) (el_click drv el).
Definition e_clear (el : WebElement) : M W unit :=
  invoke (CClear el) (fun _ => VNone) (el_clear drv el).
Definition e_send_keys (el : WebElement) (keys : list Key) : M W unit :=
  invoke (CSendKeys el keys) (fun _ => VNone) (el_send_keys drv el keys).
Definition e_get_attribute (el : WebElement) (name : string) : M W (option string) :=
  invoke (CGetAttribute el name) VOptStr (el_get_attribute drv el name).
Definition e_text (el : WebElement) : M W string :=
  invoke (CText el) VStr (el_text drv el).

Definition _wait (c : Condition) (loc : Locator) (timeout : option Z) : M W WebElement :=
  w_until c loc (timeout_or_default timeout).

Definition save_screenshot (name : option string) : M W string :=
  now <- time ;;
  let ts := strftime drv now in
  let fname := PyStr.or_else (PyStr.opt_or_empty name) ("screenshots/snap_" ++ ts ++ ".png") in
  d_save_screenshot fname ;;;
  ret fname.

Definition url_schemes : list string := ["http://"; "https://"].

Definition open_url (url : string) (wait_for_locator : option Locator) (timeout : option Z)
  : M W unit :=
  if negb (PyStr.truthy url) then
    raise (ValueError "url must be a non-empty string")
  else if negb (PyStr.startswith_any url_schemes url) then
    raise (ValueError "open_url expects a full url starting with http:// or https://")
  else
    let t := timeout_or_default timeout in
    try_except (d_get url) is_WebDriverException
      (fun e =>
         ts <- epoch_seconds ;;
         save_screenshot (Some ("screenshots/open_url_error_" ++ ts ++ ".png")) ;;;
         raise e) ;;;
    try_except (w_ready_state t) is_TimeoutException
      (fun _ =>
         ts <- epoch_seconds ;;
         save_screenshot (Some ("screenshots/open_url_readystate_timeout_" ++ ts ++ ".png")) ;;;
         ret tt) ;;;
    match wait_for_locator with
    | Some loc =>
        try_except (w_until visibility_of_element_located loc t ;;; ret tt) is_TimeoutException
          (fun _ =>
             ts <- epoch_seconds ;;
             fname <- save_screenshot
                        (Some ("screenshots/open_url_wait_for_locator_timeout_" ++ ts ++ ".png")) ;;
             raise (AssertionError ("Timed out waiting for locator " ++ repr_locator drv loc
                                    ++ ". Screenshot: " ++ fname)))
    | None => ret tt
    end.

(** The base URL [open] resolves: [ReadConfig.get_user_login_url()], and
    the stripped [BASE_URL] of the environment when that call raises. *)
Definition resolve_base : M W string :=
  try_except (lift_sys ReadConfig.get_user_login_url) is_Exception
    (fun _ => v <- lift_sys (ReadConfig.getenv_default "BASE_URL" "") ;; ret (PyStr.strip v)).

Definition join_url (base path : string) : string :=
  PyStr.rstrip "/" base ++ "/" ++ PyStr.lstrip "/" path.

Definition open (path_or_url : string) (wait_for_locator : option Locator)
    (timeout : option Z) : M W unit :=
  if PyStr.startswith_any url_schemes path_or_url then
    open_url path_or_url wait_for_locator timeout
  else
    base <- resolve_base ;;
    if negb (PyStr.truthy base) then
      raise (RuntimeError
        "Base URL not configured. Set ReadConfig.get_application_url() or env BASE_URL")
    else
      let full := join_url base path_or_url in
      open_url full wait_for_locator timeout.

Definition find (loc : Locator) (timeout : option Z) : M W WebElement :=
  _wait presence_of_element_located loc timeout.
Definition find_visible (loc : Locator) (timeout : option Z) : M W WebElement :=
  _wait visibility_of_element_located loc timeout.
Definition find_clickable (loc : Locator) (timeout : option Z) : M W WebElement :=
  _wait element_to_be_clickable loc timeout.

(** The two [while time.time() < end] loops are recursions on a number of
    rounds.  A round that does not leave the loop sleeps, so the clock gains
    at least a millisecond per round and the milliseconds left until [end_]
    bound the rounds; [rounds] is one more than that.  A loop that ran out
    of rounds would raise [out_of_rounds]: [get_element_list_loop_spec] and
    [type_and_verify_loop_spec] show that this never happens. *)
Definition rounds (now end_ : Z) : nat := S (Z.to_nat (end_ - now)).

Definition out_of_rounds : exn := RuntimeError "polling budget exhausted".

(** The [while time.time() < end] loop of [get_element_list]. *)
Fixpoint get_element_list_loop (n : nat) (loc : Locator) (end_ : Z)
  : M W (list WebElement) :=
  match n with
  | O => raise out_of_rounds
  | S n' =>
      now <- time ;;
      if now <? end_ then
        elems <- d_find_elements loc ;;
        match elems with
        | _ :: _ => ret elems
        | [] => sleep 150 ;;; get_element_list_loop n' loc end_
        end
      else ret []
  end.

Definition get_element_list (loc : Locator) (timeout : option Z) : M W (list WebElement) :=
  let t := timeout_or_default timeout in
  now <- time ;;
  let end_ := now + 1000 * t in
  get_element_list_loop (rounds now end_) loc end_.

Definition click_script : string := "arguments[0].click();".

Definition click (loc : Locator) (timeout : option Z) : M W unit :=
  el <- find_clickable loc timeout ;;
  try_except (e_click el) is_WebDriverException
    (fun _ => d_execute_script click_script [ArgElement el]).

(** The [try: el.clear() except WebDriverException: ...] block shared by
    [clear], [type] and [type_and_verify]. *)
Definition clear_element (el : WebElement) : M W unit :=
  try_except (e_clear el) is_WebDriverException
    (fun _ =>
       try_except (e_send_keys el [CONTROL; Text "a"; DELETE]) is_Exception
         (fun _ => ret tt)).

Definition clear (loc : Locator) (timeout : option Z) : M W unit :=
  el <- find_visible loc timeout ;;
  clear_element el.

Definition type (loc : Locator) (text : string) (timeout : option Z)
    (clear_first send_enter : bool) : M W unit :=
  el <- find_visible loc timeout ;;
  try_except (e_click el) is_WebDriverException (fun _ => ret tt) ;;;
  (if clear_first then clear_element el else ret tt) ;;;
  e_send_keys el [Text text] ;;;
  (if send_enter then e_send_keys el [ENTER] else ret tt).

(** [(el.get_attribute("value") or el.text or "").strip()] *)
Definition read_value (el : WebElement) : M W string :=
  v <- e_get_attribute el "value" ;;
  raw <- (if PyStr.truthy (PyStr.opt_or_empty v) then ret (PyStr.opt_or_empty v)
          else t <- e_text el ;; ret (PyStr.or_else t "")) ;;
  ret (PyStr.strip raw).

(** [last_val == text or (allow_partial and text in last_val)] *)
Definition accepted (text : string) (allow_partial : bool) (last_val : string) : bool :=
  String.eqb last_val text || (allow_partial && PyStr.contains text last_val).

(** How the polling loop of [type_and_verify] is left: by its [return],
    or by its condition, with the [last_val] it holds then. *)
Inductive PollExit : Type :=
| Returned (last_val : string)
| Exhausted (last_val : string).

Fixpoint type_and_verify_loop (n : nat) (el : WebElement) (text : string)
    (allow_partial : bool) (end_ : Z) (last_val : string) : M W PollExit :=
  match n with
  | O => raise out_of_rounds
  | S n' =>
      now <- time ;;
      if now <? end_ then
        last_val <- try_except (read_value el) is_Exception (fun _ => ret "") ;;
        if accepted text allow_partial last_val then ret (Returned last_val)
        else sleep 120 ;;; type_and_verify_loop n' el text allow_partial end_ last_val
      else ret (Exhausted last_val)
  end.

Definition set_value_script : string :=
  "arguments[0].value = arguments[1];"
  ++ "arguments[0].dispatchEvent(new Event('input'));"
  ++ "arguments[0].dispatchEvent(new Event('change'));".

Definition type_and_verify (loc : Locator) (text : string) (timeout : option Z)
    (clear_first allow_partial send_enter : bool) : M W string :=
  el <- find_visible loc timeout ;;
  try_except (e_click el) is_WebDriverException (fun _ => ret tt) ;;;
  (if clear_first then clear_element el else ret tt) ;;;
  e_send_keys el [Text text] ;;;
  (if send_enter then e_send_keys el [ENTER] else ret tt) ;;;
  try_except (e_send_keys el [TAB]) is_Exception (fun _ => ret tt) ;;;
  let t := timeout_or_default timeout in
  now <- time ;;
  let end_ := now + 1000 * t in
  polled <- type_and_verify_loop (rounds now end_) el text allow_partial end_ "" ;;
  match polled with
  | Returned last_val => ret last_val
  | Exhausted last_val =>
      try_except
        (d_execute_script set_value_script [ArgElement el; ArgStr text] ;;;
         sleep 120 ;;;
         last_val <- read_value el ;;
         if accepted text allow_partial last_val then ret last_val else ret last_val)
        is_Exception
        (fun _ => ret last_val)
  end.

Definition get_text (loc : Locator) (timeout : option Z) : M W string :=
  el <- find_visible loc timeout ;;
  t <- e_text el ;;
  ret (PyStr.strip (PyStr.or_else t "")).

End Methods.

End BasePage.

(** ** Configuration overrides, as statements *)

Module ConfigSpec.
Import ReadConfig.

Definition set_environ (env : gmap string string) (s : Sys) : Sys :=
  {| environ := env; config_ini := config_ini s; _config := _config s |}.

(** Every setting has an environment variable of its own that wins over
    the file whenever it is set: [var] names the variable of each key,
    no two keys share one. *)
Definition dedicated_override (var : Key -> string) : Prop :=
  (forall k1 k2, var k1 = var k2 -> k1 = k2) /\
  (forall k s v, environ s !! var k = Some v -> fst (lookup k s) = Ok v).

Definition every_key_has_own_override : Prop :=
  exists var : Key -> string, dedicated_override var.

(** The settings whose getter names an environment variable no other
    setting is stored under, with that variable. *)
Definition overrides : list (Key * string) :=
  [ (LoginUrl, "ADMIN_LOGIN_URL");
    (UserEmail, "ADMIN_EMAIL");
    (UserPassword, "ADMIN_PASSWORD") ].

(** A process with one variable set and a file holding other values. *)
Definition sample_config : Parser :=
  {[ "common info" :=
       {[ "user_login_url" := "http://file.example/login";
          "search_item" := "from-file";
          "pim_emp_name" := "Alice" ]} ]}.

Definition sample_sys (var value : string) : Sys :=
  {| environ := {[ var := value ]};
     config_ini := Some sample_config;
     _config := None |}.

End ConfigSpec.

(** ** Runs of the page object, as statements *)

Module PageSpec.
Import BasePage.

(** The calls logged between two worlds of one run. *)
Definition new_events {B} (w w' : World B) : list Event :=
  drop (List.length (trace w)) (trace w').

Definition is_navigation (ev : Event) : bool :=
  match ev_call ev with CGet _ => true | _ => false end.

(** How many times [driver.get] was called in a stretch of the log. *)
Definition navigations (evs : list Event) : nat :=
  List.length (List.filter is_navigation evs).

Definition is_fault (ev : Event) : bool :=
  match ev_result ev with Raise _ => true | Ok _ => false end.

Definition valid_url (url : string) : bool :=
  PyStr.truthy url && PyStr.startswith_any url_schemes url.

(** A browser without state whose every call takes five milliseconds:
    [faults] says which calls raise and what, the others return; the one
    element of the page is number 7, [field_value] is its [value]
    attribute, [rendered] its text, [matches] what [find_elements] finds. *)
Record Script : Type := {
  faults : Call -> option exn;
  field_value : option string;
  rendered : string;
  matches : list WebElement
}.

Definition reply {A} (sc : Script) (c : Call) (a : A) : Reply A unit :=
  (match faults sc c with Some e => Raise e | None => Ok a end, 5%N, tt).

Definition scripted_driver (sc : Script) : Driver unit :=
  {| drv_get := fun url _ => reply sc (CGet url) tt;
     drv_execute_script := fun script args _ => reply sc (CExecuteScript script args) tt;
     drv_find_elements := fun loc _ => reply sc (CFindElements loc) (matches sc);
     drv_save_screenshot := fun fname _ => reply sc (CSaveScreenshot fname) true;
     wait_ready_state := fun t _ => reply sc (CWaitReadyState t) tt;
     wait_until := fun c loc t _ => reply sc (CWaitUntil c loc t) 7%N;
     el_click := fun el _ => reply sc (CClick el) tt;
     el_clear := fun el _ => reply sc (CClear el) tt;
     el_send_keys := fun el keys _ => reply sc (CSendKeys el keys) tt;
     el_get_attribute := fun el name _ => reply sc (CGetAttribute el name) (field_value sc);
     el_text := fun el _ => reply sc (CText el) (rendered sc);
     repr_locator := fun loc => "('" ++ fst loc ++ "', '" ++ snd loc ++ "')";
     strftime := fun _ => "20240101_000000" |}.

Definition scripted_page (sc : Script) : Page unit :=
  {| driver := scripted_driver sc; default_timeout := 8 |}.

(** Everything succeeds; the field holds ["Dashboard"]. *)
Definition calm : Script :=
  {| faults := fun _ => None;
     field_value := Some "Dashboard"; rendered := ""; matches := [7%N] |}.

(** The native click is intercepted by an overlay. *)
Definition obstructed : Script :=
  {| faults := fun c => match c with CClick _ => Some WebDriverException | _ => None end;
     field_value := Some "Dashboard"; rendered := ""; matches := [7%N] |}.

(** The document never reports [complete]. *)
Definition slow_page : Script :=
  {| faults := fun c => match c with CWaitReadyState _ => Some TimeoutException | _ => None end;
     field_value := Some "Dashboard"; rendered := ""; matches := [7%N] |}.

(** No expected condition on a locator is ever met. *)
Definition missing_landmark : Script :=
  {| faults := fun c => match c with CWaitUntil _ _ _ => Some TimeoutException | _ => None end;
     field_value := Some "Dashboard"; rendered := ""; matches := [] |}.

(** Nothing matches any locator handed to [find_elements]. *)
Definition no_match : Script :=
  {| faults := fun _ => None;
     field_value := Some "Dashboard"; rendered := ""; matches := [] |}.

(** A field that holds exactly the keys ["ab "], trailing blank included. *)
Definition padded_field : Script :=
  {| faults := fun _ => None;
     field_value := Some "ab "; rendered := ""; matches := [7%N] |}.

(** The log entry of a ready-state wait that ran out of time. *)
Definition ready_timeout (t : Z) : Event :=
  {| ev_call := CWaitReadyState t; ev_result := Raise TimeoutException |}.

(** The log entry of a visibility wait that ran out of time. *)
Definition visible_timeout (loc : Locator) (t : Z) : Event :=
  {| ev_call := CWaitUntil visibility_of_element_located loc t;
     ev_result := Raise TimeoutException |}.

Definition is_screenshot (ev : Event) : bool :=
  match ev_call ev with CSaveScreenshot _ => true | _ => false end.

(** A process whose environment names the login URL with a trailing
    slash, and no configuration file. *)
Definition sys_with_login_url : ReadConfig.Sys :=
  {| ReadConfig.environ := {[ "ADMIN_LOGIN_URL" := "http://host/" ]};
     ReadConfig.config_ini := None;
     ReadConfig._config := None |}.

(** [s] is made of slashes only. *)
Definition slashes (s : string) : bool := PyStr.all (fun c => PyStr.mem c "/") s.

Definition found (loc : Locator) (r : Res (list WebElement)) : Event :=
  {| ev_call := CFindElements loc; ev_result := res_map VElements r |}.

Definition slept (ms : Z) : Event :=
  {| ev_call := CSleep ms; ev_result := Ok VNone |}.

(** The logs of a poll for the elements of a locator, with the outcome of
    the poll: lookups that find nothing are each followed by a sleep of 150
    milliseconds; the poll ends at the deadline with the empty list, at the
    first lookup that finds something with what it found, or at a lookup
    that faults with its fault. *)
Inductive poll_log (loc : Locator) : list Event -> Res (list WebElement) -> Prop :=
| poll_deadline :
    poll_log loc [] (Ok [])
| poll_found (el : WebElement) (els : list WebElement) :
    poll_log loc [found loc (Ok (el :: els))] (Ok (el :: els))
| poll_fault (e : exn) :
    poll_log loc [found loc (Raise e)] (Raise e)
| poll_again (evs : list Event) (r : Res (list WebElement)) :
    poll_log loc evs r ->
    poll_log loc (found loc (Ok []) :: slept 150 :: evs) r.

(** *** The verification protocol of [type_and_verify] *)

#[global] Instance Key_eq_dec : EqDecision Key.
Proof. solve_decision. Defined.
#[global] Instance Condition_eq_dec : EqDecision Condition.
Proof. solve_decision. Defined.
#[global] Instance JsArg_eq_dec : EqDecision JsArg.
Proof. solve_decision. Defined.
#[global] Instance Call_eq_dec : EqDecision Call.
Proof. solve_decision. Defined.

(** The calls made to verify a typed text: reads of the field, sleeps and
    scripts.  The calls that find the element and type into it are none of
    these. *)
Definition is_verification (ev : Event) : bool :=
  match ev_call ev with
  | CGetAttribute _ _ | CText _ | CExecuteScript _ _ | CSleep _ => true
  | _ => false
  end.

Definition is_script (ev : Event) : bool :=
  match ev_call ev with CExecuteScript _ _ => true | _ => false end.

(** The verification calls that are not the script: reads and sleeps. *)
Definition passive (ev : Event) : Prop :=
  is_verification ev = true /\ is_script ev = false.

Definition calls (c : Call) (ev : Event) : bool := bool_decide (ev_call ev = c).

(** Where a verification stands.  [Polling v]: a poll may start, the value
    recorded so far is [v].  [PollingText]: the value attribute was absent
    or empty, the rendered text is read next.  [Sleeping v]: the poll
    recorded [v], which was not accepted; 120 ms of sleep follow.
    [Settling], [Rechecking], [RecheckingText]: the script fallback has run,
    then its settle delay, then its one read.  [Finished v]: the call
    returns [v]. *)
Inductive Phase : Type :=
| Polling (last_val : string)
| PollingText (last_val : string)
| Sleeping (last_val : string)
| Settling (last_val : string)
| Rechecking (last_val : string)
| RecheckingText (last_val : string)
| Finished (result : string).

Section Protocol.
Variables (el : WebElement) (text : string) (allow_partial : bool).

(** A poll has recorded the trimmed observation [v]. *)
Definition recorded (v : string) : Phase :=
  if accepted text allow_partial v then Finished v else Sleeping v.

Definition step (s : Phase) (ev : Event) : option Phase :=
  match s with
  | Polling last_val =>
      if calls (CGetAttribute el "value") ev then
        match ev_result ev with
        | Ok (VOptStr v) =>
            if PyStr.truthy (PyStr.opt_or_empty v)
            then Some (recorded (PyStr.strip (PyStr.opt_or_empty v)))
            else Some (PollingText last_val)
        | Ok _ => None
        | Raise _ => Some (recorded "")
        end
      else if calls (CExecuteScript set_value_script [ArgElement el; ArgStr text]) ev then
        match ev_result ev with
        | Ok _ => Some (Settling last_val)
        | Raise _ => Some (Finished last_val)
        end
      else None
  | PollingText _ =>
      if calls (CText el) ev then
        match ev_result ev with
        | Ok (VStr t) => Some (recorded (PyStr.strip t))
        | Ok _ => None
        | Raise _ => Some (recorded "")
        end
      else None
  | Sleeping v => if calls (CSleep 120) ev then Some (Polling v) else None
  | Settling last_val => if calls (CSleep 120) ev then Some (Rechecking last_val) else None
  | Rechecking last_val =>
      if calls (CGetAttribute el "value") ev then
        match ev_result ev with
        | Ok (VOptStr v) =>
            if PyStr.truthy (PyStr.opt_or_empty v)
            then Some (Finished (PyStr.strip (PyStr.opt_or_empty v)))
            else Some (RecheckingText last_val)
        | Ok _ => None
        | Raise _ => Some (Finished last_val)
        end
      else None
  | RecheckingText last_val =>
      if calls (CText el) ev then
        match ev_result ev with
        | Ok (VStr t) => Some (Finished (PyStr.strip t))
        | Ok _ => None
        | Raise _ => Some (Finished last_val)
        end
      else None
  | Finished _ => None
  end.

(** The phase a log leads to, when every call of it is one the protocol
    allows where it stands. *)
Fixpoint feed (s : Phase) (evs : list Event) : option Phase :=
  match evs with
  | [] => Some s
  | ev :: evs' =>
      match step s ev with
      | Some s' => feed s' evs'
      | None => None
      end
  end.

End Protocol.

(** How many scripts the protocol still allows from a phase. *)
Definition scripts_left (s : Phase) : nat :=
  match s with
  | Polling _ | PollingText _ | Sleeping _ => 1
  | Settling _ | Rechecking _ | RecheckingText _ | Finished _ => 0
  end.

(** The steps of [type_and_verify] from the reading of the clock on: the
    polling loop and the script fallback. *)
Definition verification {B} (self : Page B) (el : WebElement) (text : string)
    (timeout : option Z) (allow_partial : bool) : M (World B) string :=
  let t := timeout_or_default self timeout in
  now <- time ;;
  let end_ := now + 1000 * t in
  polled <- type_and_verify_loop self (rounds now end_) el text allow_partial end_ "" ;;
  match polled with
  | Returned last_val => ret last_val
  | Exhausted last_val =>
      try_except
        (d_execute_script self set_value_script [ArgElement el; ArgStr text] ;;;
         sleep 120 ;;;
         last_val <- read_value self el ;;
         if accepted text allow_partial last_val then ret last_val else ret last_val)
        is_Exception
        (fun _ => ret last_val)
  end.

(** A computation that makes no verification call, whose clock does not
    run backwards, and whose fault, if any, is the fault of its last call. *)
Definition typing_only {B A} (m : M (World B) A) : Prop :=
  forall w r w', m w = (r, w') ->
    clock w <= clock w' /\
    exists evs, trace w' = (trace w ++ evs)%list /\
      Forall (fun ev => is_verification ev = false) evs /\
      forall e, r = Raise e ->
        exists c, last evs = Some {| ev_call := c; ev_result := Raise e |}.

(** A computation that types, then verifies: typing calls first, then a log
    the protocol follows from [Polling ""] to [Finished] on the value
    returned; a fault can only come from the typing calls; a script in the
    log means [t] seconds have gone by. *)
Definition verified_run {B} (el : WebElement) (text : string) (allow_partial : bool) (t : Z)
    (m : M (World B) string) : Prop :=
  forall w r w', m w = (r, w') ->
    clock w <= clock w' /\
    exists typed checked, trace w' = (trace w ++ typed ++ checked)%list /\
      Forall (fun ev => is_verification ev = false) typed /\
      Forall (fun ev => is_verification ev = true) checked /\
      match r with
      | Ok v => feed el text allow_partial (Polling "") checked = Some (Finished v)
      | Raise e => checked = [] /\
                   exists c, last typed = Some {| ev_call := c; ev_result := Raise e |}
      end /\
      (Exists (fun ev => is_script ev = true) checked -> clock w + 1000 * t <= clock w').

(** The wording of the spec, read on the untrimmed value attribute: a read
    that observes exactly the requested text ends the call, which returns
    that observation. *)
Definition returns_at_equal_value : Prop :=
  forall (B : Type) (self : Page B) (loc : Locator) (text : string) (timeout : option Z)
         (clear_first allow_partial send_enter : bool) (w w' : World B) (r : Res string)
         (el : WebElement),
    type_and_verify self loc text timeout clear_first allow_partial send_enter w = (r, w') ->
    In {| ev_call := CGetAttribute el "value"; ev_result := Ok (VOptStr (Some text)) |}
       (new_events w w') ->
    r = Ok text.

Definition name_field : Locator := ("name", "firstName").

Definition empty_sys : ReadConfig.Sys :=
  {| ReadConfig.environ := ∅; ReadConfig.config_ini := None; ReadConfig._config := None |}.

(** The world at second 1700000000, nothing logged yet. *)
Definition world0 (s : ReadConfig.Sys) : World unit :=
  {| clock := 1700000000000; trace := []; browser := tt; sys := s |}.

Definition login_button : Locator := ("xpath", "//button").

End PageSpec.

(** ** utilities/readproperties.py, the remaining methods *)

Module ReadConfigRest.
Import ReadConfig.

(** [_ensure_loaded(path)].  A path is given by what the disk holds there:
    [None] is the default [configuration/config.ini], [Some None] a path
    with no file, [Some (Some p)] a path holding the file [p]. *)
Definition _ensure_loaded_at (path : option (option Parser)) : M Sys unit :=
  fun s =>
    match _config s with
    | Some _ => (Ok tt, s)
    | None =>
        match (match path with Some file => file | None => config_ini s end) with
        | None => (Raise (FileNotFoundError "Config file not found"), s)
        | Some parser => (Ok tt, set_config (Some parser) s)
        end
    end.

Definition reload (path : option (option Parser)) : M Sys unit :=
  (fun s => (Ok tt, set_config None s)) ;;;
  _ensure_loaded_at path.

(** [RawConfigParser.BOOLEAN_STATES], looked up on the lowered value. *)
Definition boolean_state (v : string) : option bool :=
  let l := PyStr.lower v in
  if (String.eqb l "1" || String.eqb l "yes" || String.eqb l "true" || String.eqb l "on")%bool
  then Some true
  else if (String.eqb l "0" || String.eqb l "no" || String.eqb l "false"
           || String.eqb l "off")%bool
  then Some false
  else None.

(** [parser.getboolean(section, key)], without a fallback: a missing
    section or option raises ([NoSectionError], [NoOptionError], here
    [OtherException]), a value that is no boolean raises [ValueError]. *)
Definition getboolean (p : Parser) (section key : string) : Res bool :=
  match p !! section with
  | None => Raise OtherException
  | Some opts =>
      match opts !! key with
      | None => Raise OtherException
      | Some v =>
          match boolean_state v with
          | Some b => Ok b
          | None => Raise (ValueError ("Not a boolean: " ++ v))
          end
      end
  end.

(** [get_bool]: [cls._config.getboolean] on a [_config] that is still [None]
    raises [AttributeError], here [OtherException]. *)
Definition get_bool (section key : string) (fallback : option bool)
    (env_var : option string) : M Sys (option bool) :=
  raw <- get section key None env_var ;;
  match raw with
  | None => ret fallback
  | Some _ =>
      fun s =>
        match _config s with
        | None => (Raise OtherException, s)
        | Some p => (res_map Some (getboolean p section key), s)
        end
  end.

(** The file on disk is replaced. *)
Definition write_config (file : option Parser) (s : Sys) : Sys :=
  {| environ := environ s; config_ini := file; _config := _config s |}.

(** The environment variable the getter of a setting hands to [get]. *)
Definition consulted_var (k : Key) : option string :=
  match k with
  | LoginUrl => Some "ADMIN_LOGIN_URL"
  | UserEmail => Some "ADMIN_EMAIL"
  | UserPassword => Some "ADMIN_PASSWORD"
  | SearchItem => None
  | EmpInitialName => Some "ADMIN_PASSWORD"
  end.

(** The variable a getter consults is not set. *)
Definition override_unset (k : Key) (s : Sys) : Prop :=
  match consulted_var k with
  | Some var => environ s !! var = None
  | None => True
  end.

(** The file [_ensure_loaded] ends up with: the cached one, else the one
    on disk. *)
Definition available (s : Sys) : option Parser :=
  match _config s with
  | Some p => Some p
  | None => config_ini s
  end.

Definition flags_config : Parser :=
  {[ "common info" := {[ "headless" := "Yes"; "retries" := "three" ]} ]}.

End ReadConfigRest.

(** ** pageobjects: the remaining methods of [BasePage] and the pages *)

Module Pages.
Import BasePage.

Section BaseRest.
Context {B : Type} (self : Page B).

Definition element_value (loc : Locator) (timeout : option Z) : M (World B) string :=
  el <- find_visible self loc timeout ;;
  v <- e_get_attribute self el "value" ;;
  ret (PyStr.strip (PyStr.opt_or_empty v)).

Definition is_visible (loc : Locator) (timeout : option Z) : M (World B) WebElement :=
  _wait self visibility_of_element_located loc timeout.

End BaseRest.

(** [pageobjects/pim_page.py] *)
Module PIMPage.
Section Methods.
Context {B : Type} (self : Page B).

Definition _add_new_emp : Locator := ("xpath", "//button[normalize-space() = 'Add']").
Definition _first_name : Locator := ("xpath", "//input[@placeholder='First Name']").
Definition _middle_name : Locator := ("xpath", "//input[@placeholder='Middle Name']").
Definition _last_name : Locator := ("xpath", "//input[@placeholder='Last Name']").
Definition _empid : Locator :=
  ("xpath", "//label[normalize-space()='Employee Id']/following::input[1]").
Definition _save_details : Locator := ("xpath", "//button[normalize-space()='Save']").
Definition _emp_info_empid : Locator :=
  ("xpath", "//label[normalize-space()='Employee Id']/following::input[1]").
Definition _emp_info_search_button : Locator :=
  ("xpath", "//button[normalize-space()='Search']").
Definition _emp_record_found : Locator :=
  ("xpath", "//span[normalize-space()='(1) Record Found']").
Definition _toast : Locator :=
  ("xpath",
   "//div[contains(@class,'oxd-toaster') or @id='oxd-toaster_1' or contains(., 'Successfully')]").

Definition add_new_employee : M (World B) unit := click self _add_new_emp None.

Definition enter_f_name (f_name : string) : M (World B) unit :=
  type self _first_name f_name None true false.

Definition enter_emp_id (empid : string) : M (World B) string :=
  type self _empid empid None true false ;;;
  element_value self _empid None.

Definition get_emp_id_value : M (World B) string := element_value self _empid None.

Definition save_details : M (World B) unit := click self _save_details None.

Definition wait_for_toast (timeout : option Z) : M (World B) (option string) :=
  try_except (txt <- get_text self _toast timeout ;; ret (Some txt))
    is_Exception (fun _ => ret None).

Definition search_by_employee_id (id : string) : M (World B) unit :=
  type self _emp_info_empid id None true false ;;;
  click self _emp_info_search_button None.

Definition confirm_record_found : M (World B) string :=
  get_text self _emp_record_found None.

End Methods.
End PIMPage.

(** [pageobjects/user_dashboard_page.py] *)
Module UserDashboardPage.
Section Methods.
Context {B : Type} (self : Page B).

Definition _dashboard_txt : Locator :=
  ("xpath", String.append "//span//h6[normalize-space()=" (String "034" (String.append "Dashboard" (String "034" "]")))).

Definition capture_text : M (World B) string :=
  t <- get_text self _dashboard_txt None ;; ret (PyStr.strip t).

End Methods.
End UserDashboardPage.

(** The logs the new statements speak of. *)

(** The keys handed to [send_keys] by the calls of a log that returned. *)
Fixpoint keys_delivered (evs : list Event) : list Key :=
  match evs with
  | [] => []
  | ev :: evs' =>
      match ev_call ev, ev_result ev with
      | CSendKeys _ keys, Ok _ => (keys ++ keys_delivered evs')%list
      | _, _ => keys_delivered evs'
      end
  end.

(** The values the protocol records and finishes on are trimmed. *)
Definition trimmed (v : string) : Prop := PyStr.strip v = v.

Definition phase_value (s : PageSpec.Phase) : string :=
  match s with
  | PageSpec.Polling v | PageSpec.PollingText v | PageSpec.Sleeping v
  | PageSpec.Settling v
  | PageSpec.Rechecking v | PageSpec.RecheckingText v | PageSpec.Finished v => v
  end.

(** A computation that types and, when it returns, has begun its
    verification with the script that assigns the text to the element. *)
Definition script_first {B} (el : WebElement) (text : string) (m : M (World B) string)
  : Prop :=
  forall w r w', m w = (r, w') ->
    exists typed checked, trace w' = (trace w ++ typed ++ checked)%list /\
      Forall (fun ev => PageSpec.is_verification ev = false) typed /\
      Forall (fun ev => PageSpec.is_verification ev = true) checked /\
      forall v, r = Ok v ->
        exists out rest,
          checked = {| ev_call := CExecuteScript set_value_script [ArgElement el; ArgStr text];
                       ev_result := out |} :: rest.

Definition is_clickable_wait (ev : Event) : bool :=
  match ev_call ev with CWaitUntil element_to_be_clickable _ _ => true | _ => false end.

Definition is_lookup (ev : Event) : bool :=
  match ev_call ev with CFindElements _ => true | _ => false end.

Definition is_clear (ev : Event) : bool :=
  match ev_call ev with CClear _ => true | _ => false end.

End Pages.

(** ** utilities/random_data.py, as statements *)

Module RandomSpec.

(** Some character of [s] satisfies [p]. *)
Fixpoint has (p : ascii -> bool) (s : string) : bool :=
  match s with
  | EmptyString => false
  | String c s' => p c || has p s'
  end.

Definition repeating (n : N) : RandomData.Entropy :=
  {| RandomData.draws := fun _ => n; RandomData.cursor := 0;
     RandomData.names := fun _ => "Ann"; RandomData.name_cursor := 0 |}.

End RandomSpec.

(** ** Navigation timeouts, as statements *)

Module NavigationSpec.
Import BasePage PageSpec.

(** The wording of the spec: whenever the stabilising locator does not
    become visible in time, [open_url] fails with an [AssertionError]. *)
Definition locator_timeout_asserts : Prop :=
  forall (B : Type) (self : Page B) (url : string) (loc : Locator) (timeout : option Z)
         (w w' : World B) (r : Res unit),
    valid_url url = true ->
    open_url self url (Some loc) timeout w = (r, w') ->
    In (visible_timeout loc (timeout_or_default self timeout)) (new_events w w') ->
    exists msg, r = Raise (AssertionError msg).

(** The page never shows the locator and the capture of the screenshot
    faults as well. *)
Definition lost_session : Script :=
  {| faults := fun c => match c with
                        | CWaitUntil _ _ _ => Some TimeoutException
                        | CSaveScreenshot _ => Some WebDriverException
                        | _ => None
                        end;
     field_value := None; rendered := ""; matches := [] |}.

End NavigationSpec.

(** * Properties *)

(** ** The monad *)

Lemma bind_ok {S A B} (m : M S A) (k : A -> M S B) s a s' :
  m s = (Ok a, s') -> bind m k s = k a s'.
Proof. intros H. unfold bind. now rewrite H. Qed.

Lemma bind_raise {S A B} (m : M S A) (k : A -> M S B) s e s' :
  m s = (Raise e, s') -> bind m k s = (Raise e, s').
Proof. intros H. unfold bind. now rewrite H. Qed.

(** ** utilities/random_data.py *)

Import RandomData.

Lemma string_length_join (l : list ascii) :
  String.length (PyStr.join l) = List.length l.
Proof. induction l as [|c l IH]; simpl; [reflexivity | now rewrite IH]. Qed.

Lemma get_char_digits_is_digit i :
  (i < 10)%nat -> PyStr.is_digit (PyStr.get_char digits i) = true.
Proof.
  intros H. do 10 (destruct i as [|i]; [reflexivity|]). lia.
Qed.

Lemma get_char_nonzero_digit i :
  (i < 9)%nat -> PyStr.is_nonzero_digit (PyStr.get_char "123456789" i) = true.
Proof.
  intros H. do 9 (destruct i as [|i]; [reflexivity|]). lia.
Qed.

Lemma nonzero_digit_is_digit c :
  PyStr.is_nonzero_digit c = true -> PyStr.is_digit c = true.
Proof.
  unfold PyStr.is_nonzero_digit, PyStr.is_digit. cbn [PyStr.mem].
  intros ->. now rewrite orb_true_r.
Qed.

(** A choice from a non-empty sequence returns one of its characters. *)
Lemma choice_ok (seq : string) g :
  (0 < String.length seq)%nat ->
  exists i g', (i < String.length seq)%nat /\
               choice seq g = (Ok (PyStr.get_char seq i), g').
Proof.
  intros Hlen. unfold choice.
  destruct (String.length seq) as [|n] eqn:E; [lia|].
  eexists _, _. split; [|reflexivity].
  apply Nat.mod_upper_bound. lia.
Qed.

Lemma choice_list_ok (seq : string) (p : ascii -> bool) k :
  (0 < String.length seq)%nat ->
  (forall i, (i < String.length seq)%nat -> p (PyStr.get_char seq i) = true) ->
  forall g, exists cs g',
    choice_list seq k g = (Ok cs, g') /\ List.length cs = k /\
    PyStr.all p (PyStr.join cs) = true.
Proof.
  intros Hlen Hp. induction k as [|k IH]; intros g.
  - exists [], g. repeat split.
  - destruct (choice_ok seq g Hlen) as (i & g1 & Hi & Hc).
    destruct (IH g1) as (cs & g2 & Hcs & Hl & Hall).
    exists (PyStr.get_char seq i :: cs), g2. split; [|split].
    + cbn [choice_list]. rewrite (bind_ok _ _ _ _ _ Hc).
      now rewrite (bind_ok _ _ _ _ _ Hcs).
    + simpl. now rewrite Hl.
    + simpl. now rewrite Hp, Hall.
Qed.

(** [employee_id] with [allow_leading_zero=False]: the first character and
    the rest, for every length and every entropy. *)
Lemma employee_id_shape (length : Z) (g : Entropy) :
  exists (c : ascii) (rest : string) (g' : Entropy),
    employee_id length false g = (Ok (String c rest), g') /\
    PyStr.is_nonzero_digit c = true /\
    PyStr.all PyStr.is_digit rest = true /\
    String.length rest = Z.to_nat (length - 1).
Proof.
  destruct (choice_ok "123456789" g) as (i & g1 & Hi & Hc); [simpl; lia|].
  simpl in Hi. pose proof (get_char_nonzero_digit i Hi) as Hnz.
  unfold employee_id. destruct (1 <? length) eqn:Hlen.
  - apply Z.ltb_lt in Hlen.
    destruct (choice_list_ok digits PyStr.is_digit (Z.to_nat (length - 1))
                ltac:(simpl; lia) get_char_digits_is_digit g1)
      as (cs & g2 & Hcs & Hl & Hall).
    exists (PyStr.get_char "123456789" i), (PyStr.join cs), g2.
    split; [|split; [|split]]; [|exact Hnz|exact Hall|].
    + rewrite (bind_ok _ _ _ _ _ Hc).
      erewrite bind_ok; [reflexivity|]. now rewrite (bind_ok _ _ _ _ _ Hcs).
    + now rewrite string_length_join, Hl.
  - apply Z.ltb_ge in Hlen.
    exists (PyStr.get_char "123456789" i), "", g1.
    split; [|split; [|split]]; [|exact Hnz|reflexivity|].
    + now rewrite (bind_ok _ _ _ _ _ Hc).
    + cbn [String.length]. lia.
Qed.

Lemma employee_id_total (length : Z) (g : Entropy) :
  exists eid g', employee_id length false g = (Ok eid, g').
Proof.
  destruct (employee_id_shape length g) as (c & rest & g' & H & _).
  now exists (String c rest), g'.
Qed.

(** C10. For every [length], [employee_id(length, allow_leading_zero=False)]
    returns a string of decimal digits of length [max(length, 1)] whose
    first character is one of 1..9; for [length <= 1], zero and negative
    lengths included, that is a single non-zero digit. *)
Theorem employee_id_no_leading_zero (length : Z) (g : Entropy) :
  exists (c : ascii) (rest : string) (g' : Entropy),
    employee_id length false g = (Ok (String c rest), g') /\
    PyStr.is_nonzero_digit c = true /\
    PyStr.all PyStr.is_digit (String c rest) = true /\
    String.length (String c rest) = Z.to_nat (Z.max length 1) /\
    (length <= 1 -> rest = "").
Proof.
  destruct (employee_id_shape length g) as (c & rest & g' & Hrun & Hc & Hrest & Hlen).
  exists c, rest, g'. split; [exact Hrun|]. split; [exact Hc|]. split; [|split].
  - cbn [PyStr.all]. now rewrite (nonzero_digit_is_digit _ Hc), Hrest.
  - cbn [String.length]. rewrite Hlen. lia.
  - intros Hle. destruct rest as [|a rest]; [reflexivity|].
    cbn [String.length] in Hlen. lia.
Qed.

Lemma choice_list_total (seq : string) k g :
  (0 < String.length seq)%nat ->
  exists cs g', choice_list seq k g = (Ok cs, g').
Proof.
  intros Hlen.
  destruct (choice_list_ok seq (fun _ => true) k Hlen (fun _ _ => eq_refl) g)
    as (cs & g' & H & _).
  now exists cs, g'.
Qed.

Lemma choices_total (population : string) k g :
  (0 < String.length population)%nat ->
  exists cs g', choices population k g = (Ok cs, g').
Proof. apply choice_list_total. Qed.

Lemma shuffle_from_total i : forall x g,
  exists y g', shuffle_from i x g = (Ok y, g').
Proof.
  induction i as [|i IH]; intros x g.
  - now exists x, g.
  - cbn [shuffle_from]. unfold bind at 1. cbn [randbelow].
    apply IH.
Qed.

(** The generated password: always returned, for every requested length. *)
Lemma password_total (length : Z) g :
  exists pwd g', password length 1 1 1 1 "!@#$%" g = (Ok pwd, g').
Proof.
  unfold password.
  destruct (choices_total ascii_uppercase 1 g) as (a & g1 & Ha); [simpl; lia|].
  rewrite (bind_ok _ _ _ _ _ Ha).
  destruct (choices_total ascii_lowercase 1 g1) as (b & g2 & Hb); [simpl; lia|].
  rewrite (bind_ok _ _ _ _ _ Hb).
  destruct (choices_total digits 1 g2) as (c & g3 & Hc); [simpl; lia|].
  rewrite (bind_ok _ _ _ _ _ Hc).
  destruct (choices_total "!@#$%" 1 g3) as (d & g4 & Hd); [simpl; lia|].
  rewrite (bind_ok _ _ _ _ _ Hd).
  destruct (choices_total (ascii_letters ++ digits ++ "!@#$%")
              (length - Z.of_nat (List.length (a ++ b ++ c ++ d)%list)) g4)
    as (e & g5 & He); [simpl; lia|].
  rewrite (bind_ok _ _ _ _ _ He).
  destruct (shuffle_from_total (List.length ((a ++ b ++ c ++ d) ++ e)%list - 1)
              ((a ++ b ++ c ++ d) ++ e)%list g5) as (y & g6 & Hy).
  unfold shuffle. rewrite (bind_ok _ _ _ _ _ Hy).
  now exists (PyStr.join y), g6.
Qed.

(** C9. Every record [generate_employee_with_credentials] produces, for
    all lengths and all random outcomes, carries the same string under
    ["password"] and ["confirm_password"]; and a record is produced for
    all of them. *)
Theorem generated_confirm_password_matches
    (id_length username_length password_length : Z) (g : Entropy) :
  exists (rec : gmap string string) (g' : Entropy) (pwd : string),
    generate_employee_with_credentials id_length username_length password_length g
      = (Ok rec, g') /\
    rec !! "password" = Some pwd /\
    rec !! "confirm_password" = Some pwd.
Proof.
  unfold generate_employee_with_credentials, first_name, middle_name, last_name.
  unfold bind at 1. cbn [faker_name].
  unfold bind at 1. cbn [faker_name].
  unfold bind at 1. cbn [faker_name].
  match goal with |- context [bind (employee_id _ _) _ ?g0] =>
    destruct (employee_id_total id_length g0) as (eid & g1 & He) end.
  rewrite (bind_ok _ _ _ _ _ He).
  destruct (password_total password_length g1) as (pwd & g2 & Hp).
  rewrite (bind_ok _ _ _ _ _ Hp).
  eexists _, g2, pwd. split; [reflexivity|]. split.
  - rewrite lookup_insert_ne by discriminate. apply lookup_insert_eq.
  - apply lookup_insert_eq.
Qed.

(** ** utilities/readproperties.py *)

Import ReadConfig.

(** With the variable set, [get] returns its value and leaves the file
    unread. *)
Lemma get_env_set section key fallback (var : string) s v :
  PyStr.truthy var = true ->
  environ s !! var = Some v ->
  get section key fallback (Some var) s = (Ok (Some v), s).
Proof.
  intros Hvar Hv. unfold get, env_var_given. rewrite Hvar.
  unfold bind, getenv. now rewrite Hv.
Qed.

(** Without a variable, [get] is [_get_raw]: the environment plays no part. *)
Lemma get_no_env section key fallback :
  get section key fallback None = _get_raw section key fallback.
Proof. reflexivity. Qed.

Lemma _get_raw_environ section key fallback env s :
  fst (_get_raw section key fallback (ConfigSpec.set_environ env s))
  = fst (_get_raw section key fallback s).
Proof.
  unfold _get_raw, bind, _ensure_loaded, ConfigSpec.set_environ. cbn.
  destruct (_config s) as [p|] eqn:E; cbn; [now rewrite E|].
  destruct (config_ini s) as [p|]; reflexivity.
Qed.

(** C5, as worded: there is no assignment of one own variable to each of
    the five settings that the getters honour; whatever variable is
    proposed for the search item, setting it does not change what
    [get_search_item_name] returns. *)
Lemma not_every_key_has_own_override : ~ ConfigSpec.every_key_has_own_override.
Proof.
  intros (var & _ & H).
  specialize (H SearchItem (ConfigSpec.sample_sys (var SearchItem) "from-env") "from-env").
  assert (Hset : environ (ConfigSpec.sample_sys (var SearchItem) "from-env")
                   !! var SearchItem = Some "from-env") by apply lookup_singleton_eq.
  specialize (H Hset).
  assert (Hfile : fst (lookup SearchItem (ConfigSpec.sample_sys (var SearchItem) "from-env"))
                  = Ok "from-file") by reflexivity.
  rewrite Hfile in H. discriminate H.
Qed.

(** C5, amended. For the login URL, the user email and the user password
    the getter prefers the setting's own environment variable
    ([ADMIN_LOGIN_URL], [ADMIN_EMAIL], [ADMIN_PASSWORD], one per setting)
    over the file whenever that variable is set, without reading the file;
    the search item name has no override and does not depend on the
    environment. *)
Theorem env_override_precedence (k : Key) (var : string) (s : Sys) (v : string) :
  In (k, var) ConfigSpec.overrides ->
  environ s !! var = Some v ->
  lookup k s = (Ok v, s) /\
  (forall k', In (k', var) ConfigSpec.overrides -> k' = k) /\
  (forall env, fst (lookup SearchItem (ConfigSpec.set_environ env s))
               = fst (lookup SearchItem s)).
Proof.
  intros Hin Hv. split; [|split].
  - cbn in Hin.
    destruct Hin as [Hin|[Hin|[Hin|[]]]]; injection Hin as <- <-; cbn [lookup];
      unfold get_user_login_url, get_user_email, get_user_password;
      (erewrite bind_ok by (apply get_env_set; [reflexivity | exact Hv])); reflexivity.
  - intros k' Hin'. cbn in Hin, Hin'.
    destruct Hin as [Hin|[Hin|[Hin|[]]]]; injection Hin as <- <-;
      destruct Hin' as [Hin'|[Hin'|[Hin'|[]]]]; now inversion Hin'.
  - intros env. cbn [lookup]. unfold get_search_item_name. rewrite get_no_env.
    pose proof (_get_raw_environ "common info" "search_item" None env s) as Hraw.
    unfold bind.
    destruct (_get_raw "common info" "search_item" None (ConfigSpec.set_environ env s))
      as [[o1|e1] s1];
      destruct (_get_raw "common info" "search_item" None s) as [[o2|e2] s2];
      cbn in Hraw |- *; congruence.
Qed.

Lemma env_override_precedence_witness :
  let s := ConfigSpec.sample_sys "ADMIN_LOGIN_URL" "http://env.example/login" in
  file_value ConfigSpec.sample_config LoginUrl = Some "http://file.example/login" /\
  environ s !! "ADMIN_LOGIN_URL" = Some "http://env.example/login" /\
  (lookup LoginUrl s = (Ok "http://env.example/login", s) /\
   (forall k', In (k', "ADMIN_LOGIN_URL") ConfigSpec.overrides -> k' = LoginUrl) /\
   (forall env, fst (lookup SearchItem (ConfigSpec.set_environ env s))
                = fst (lookup SearchItem s))).
Proof.
  intros s. split; [reflexivity|]. split; [apply lookup_singleton_eq|].
  apply (env_override_precedence LoginUrl "ADMIN_LOGIN_URL" s "http://env.example/login").
  - left. reflexivity.
  - apply lookup_singleton_eq.
Defined.

(** The getter of the initial employee name consults [ADMIN_PASSWORD], the
    variable of the user password: with it set, the file value is not
    returned. *)
Lemma get_emp_initial_name_reads_admin_password :
  fst (get_emp_initial_name (ConfigSpec.sample_sys "ADMIN_PASSWORD" "s3cret")) = Ok "s3cret" /\
  fst (get_user_password (ConfigSpec.sample_sys "ADMIN_PASSWORD" "s3cret")) = Ok "s3cret" /\
  file_value ConfigSpec.sample_config EmpInitialName = Some "Alice".
Proof. repeat split. Qed.

(** ** pageobjects/base_page.py *)

Import BasePage PageSpec.

Lemma new_events_app {B} (w w' : World B) evs :
  trace w' = (trace w ++ evs)%list -> new_events w w' = evs.
Proof. intros H. unfold new_events. rewrite H. apply drop_app_length. Qed.

(** C6. [open_url] raises [ValueError] for every URL that is empty or
    does not start with [http://] or [https://], whatever the other
    arguments; the world is the one it was called in: nothing was asked of
    the session, no navigation and no second attempt. *)
Theorem open_url_rejects_invalid {B} (self : Page B) (url : string)
    (wait_for_locator : option Locator) (timeout : option Z) (w : World B) :
  url = "" \/ PyStr.startswith_any url_schemes url = false ->
  exists msg, open_url self url wait_for_locator timeout w = (Raise (ValueError msg), w).
Proof.
  intros [-> | H]; unfold open_url.
  - eexists. reflexivity.
  - destruct (negb (PyStr.truthy url)); [eexists; reflexivity|].
    rewrite H. eexists. reflexivity.
Qed.

Lemma open_url_rejects_invalid_witness :
  ("ftp://host/pim" = "" \/ PyStr.startswith_any url_schemes "ftp://host/pim" = false) /\
  exists msg,
    open_url (scripted_page calm) "ftp://host/pim" (Some login_button) None (world0 empty_sys)
    = (Raise (ValueError msg), world0 empty_sys).
Proof.
  split; [right; reflexivity|].
  apply (open_url_rejects_invalid (scripted_page calm) "ftp://host/pim"). right. reflexivity.
Defined.

(** Case analysis on the next reply of the session in a run. *)
Ltac next_reply H :=
  match type of H with
  | context [match ?op with _ => _ end] =>
      lazymatch op with
      | context [match _ with _ => _ end] => fail
      | _ => destruct op as [[[?|?] ?] ?] eqn:?; cbn in H;
             repeat match goal with u : unit |- _ => destruct u end
      end
  end.

Ltac run_done H := injection H as <- <-.

(** C3. Whenever the clickable wait has resolved an element and its native
    click raises a [WebDriverException], [click] makes exactly one further
    call, the script click on that same element: the log of the run is the
    wait, the failed native click and the script click, nothing else.  The
    native fault is not propagated; the outcome of [click] is the outcome of
    the script click, its fault included. *)
Theorem click_falls_back_once {B} (self : Page B) (loc : Locator) (timeout : option Z)
    (w w' : World B) (r : Res unit) (el : WebElement) (e : exn) :
  click self loc timeout w = (r, w') ->
  In {| ev_call := CClick el; ev_result := Raise e |} (new_events w w') ->
  is_WebDriverException e = true ->
  exists out : Res Value,
    new_events w w' =
      [ {| ev_call := CWaitUntil element_to_be_clickable loc (timeout_or_default self timeout);
           ev_result := Ok (VElement el) |};
        {| ev_call := CClick el; ev_result := Raise e |};
        {| ev_call := CExecuteScript click_script [ArgElement el]; ev_result := out |} ] /\
    r = match out with Ok _ => Ok tt | Raise e' => Raise e' end.
Proof.
  intros Hrun Hin He.
  unfold click, find_clickable, _wait, w_until, e_click, d_execute_script,
    bind, try_except, invoke in Hrun. cbn in Hrun.
  next_reply Hrun.
  2:{ run_done Hrun. erewrite new_events_app in Hin by reflexivity.
      destruct Hin as [Hin|[]]; discriminate Hin. }
  next_reply Hrun.
  { run_done Hrun. erewrite new_events_app in Hin
      by (cbn; rewrite <- app_assoc; reflexivity).
    destruct Hin as [Hin|[Hin|[]]]; discriminate Hin. }
  destruct (is_WebDriverException e0) eqn:He0.
  - next_reply Hrun; run_done Hrun;
      (erewrite new_events_app in Hin |- *
         by (cbn; rewrite <- !app_assoc; reflexivity));
      (destruct Hin as [Hin|[Hin|[Hin|[]]]]; try discriminate Hin);
      injection Hin as <- <-; eexists; split; reflexivity.
  - run_done Hrun. erewrite new_events_app in Hin
      by (cbn; rewrite <- app_assoc; reflexivity).
    destruct Hin as [Hin|[Hin|[]]]; try discriminate Hin.
    injection Hin as <- <-. congruence.
Qed.

Lemma click_falls_back_once_witness :
  let run := click (scripted_page obstructed) login_button (Some 3) (world0 empty_sys) in
  In {| ev_call := CClick 7%N; ev_result := Raise WebDriverException |}
     (new_events (world0 empty_sys) (snd run)) /\
  is_WebDriverException WebDriverException = true /\
  exists out : Res Value,
    new_events (world0 empty_sys) (snd run) =
      [ {| ev_call := CWaitUntil element_to_be_clickable login_button 3;
           ev_result := Ok (VElement 7%N) |};
        {| ev_call := CClick 7%N; ev_result := Raise WebDriverException |};
        {| ev_call := CExecuteScript click_script [ArgElement 7%N]; ev_result := out |} ] /\
    fst run = match out with Ok _ => Ok tt | Raise e' => Raise e' end.
Proof.
  intros run. split; [right; left; reflexivity|]. split; [reflexivity|].
  apply (click_falls_back_once (scripted_page obstructed) login_button (Some 3)
           (world0 empty_sys) (snd run) (fst run) 7%N WebDriverException).
  - reflexivity.
  - right. left. reflexivity.
  - reflexivity.
Defined.

Lemma valid_url_inv url :
  valid_url url = true ->
  negb (PyStr.truthy url) = false /\ negb (PyStr.startswith_any url_schemes url) = false.
Proof.
  unfold valid_url. intros H. apply andb_true_iff in H as [-> ->]. now split.
Qed.

Lemma or_else_prefixed c s t d : PyStr.or_else (String c s ++ t) d = String c s ++ t.
Proof. reflexivity. Qed.

Lemma startswith_app p s : PyStr.startswith p (p ++ s) = true.
Proof.
  induction p as [|c p IH]; [reflexivity|].
  change (String c p ++ s) with (String c (p ++ s)). cbn [PyStr.startswith].
  now rewrite Ascii.eqb_refl, IH.
Qed.

Lemma is_TimeoutException_inv e : is_TimeoutException e = true -> e = TimeoutException.
Proof. destruct e; now try discriminate. Qed.

Ltac unfold_calls H :=
  unfold save_screenshot, epoch_seconds, d_get, d_execute_script, d_find_elements,
    d_save_screenshot, w_ready_state, w_until, e_click, e_clear, e_send_keys,
    e_get_attribute, e_text, bind, try_except, invoke, time, sleep, ret, raise in H;
  cbn [clock trace browser sys res_map PyStr.opt_or_empty] in H;
  rewrite ?or_else_prefixed in H.

Ltac next_branch H :=
  first
    [ next_reply H
    | match type of H with
      | context [if ?b then _ else _] => destruct b eqn:?
      end ];
  cbn [clock trace browser sys res_map] in H.

Ltac log_of_run H :=
  match type of H with
  | (_, ?w1) = (_, _) =>
      injection H as <- <-;
      erewrite new_events_app by (cbn [trace]; rewrite <- ?app_assoc; reflexivity);
      cbn [app]
  end.

Ltac timeouts :=
  repeat match goal with
         | H : is_TimeoutException ?e = true |- _ =>
             apply is_TimeoutException_inv in H; subst e
         end.

(** A membership in a short log, split into its cases. *)
Ltac in_log H :=
  cbn [In] in H;
  repeat match type of H with
         | _ \/ _ => destruct H as [H|H]
         | False => destruct H
         end.

(** C7. For every valid absolute URL [open_url] calls [driver.get] exactly
    once, with or without a stabilising locator.  Without one, a run in
    which the ready-state wait timed out and nothing else faulted consists
    of the navigation, the wait and one screenshot, and returns normally. *)
Theorem open_url_ready_timeout_not_fatal {B} (self : Page B) (url : string)
    (wait_for_locator : option Locator) (timeout : option Z)
    (w w' : World B) (r : Res unit) :
  valid_url url = true ->
  open_url self url wait_for_locator timeout w = (r, w') ->
  navigations (new_events w w') = 1%nat /\
  (wait_for_locator = None ->
   In (ready_timeout (timeout_or_default self timeout)) (new_events w w') ->
   (forall ev, In ev (new_events w w') -> is_fault ev = true ->
               ev = ready_timeout (timeout_or_default self timeout)) ->
   r = Ok tt /\
   exists fname saved,
     PyStr.startswith "screenshots/open_url_readystate_timeout_" fname = true /\
     new_events w w' =
       [ {| ev_call := CGet url; ev_result := Ok VNone |};
         ready_timeout (timeout_or_default self timeout);
         {| ev_call := CSaveScreenshot fname; ev_result := Ok (VBool saved) |} ]).
Proof.
  intros Hurl Hrun. apply valid_url_inv in Hurl as [H1 H2].
  unfold open_url in Hrun. rewrite H1, H2 in Hrun.
  destruct wait_for_locator as [loc|]; unfold_calls Hrun.
  - split; [|discriminate].
    repeat next_branch Hrun; log_of_run Hrun; reflexivity.
  - repeat next_branch Hrun; timeouts; log_of_run Hrun; (split; [reflexivity|]);
      intros _ Hin Honly.
    all: try (in_log Hin; try discriminate Hin;
              injection Hin as ->; discriminate).
    + split; [reflexivity|]. eexists _, _. split; [|reflexivity]. apply startswith_app.
    + exfalso.
      match type of Honly with
      | forall ev, In ev [_; _; ?a] -> _ =>
          specialize (Honly a (or_intror (or_intror (or_introl eq_refl))) eq_refl)
      end.
      discriminate Honly.
Qed.

Lemma open_url_ready_timeout_not_fatal_witness :
  let page := scripted_page slow_page in
  let run := open_url page "https://hr.example/login" None None (world0 empty_sys) in
  valid_url "https://hr.example/login" = true /\
  In (ready_timeout 8) (new_events (world0 empty_sys) (snd run)) /\
  navigations (new_events (world0 empty_sys) (snd run)) = 1%nat /\
  fst run = Ok tt /\
  new_events (world0 empty_sys) (snd run) =
    [ {| ev_call := CGet "https://hr.example/login"; ev_result := Ok VNone |};
      ready_timeout 8;
      {| ev_call := CSaveScreenshot "screenshots/open_url_readystate_timeout_1700000000.png";
         ev_result := Ok (VBool true) |} ].
Proof.
  intros page run.
  destruct (open_url_ready_timeout_not_fatal page "https://hr.example/login" None None
              (world0 empty_sys) (snd run) (fst run) eq_refl eq_refl) as [Hnav Hret].
  split; [reflexivity|]. split; [right; left; reflexivity|]. split; [exact Hnav|].
  destruct Hret as [Hr _]; [reflexivity | right; left; reflexivity | | ].
  - intros ev Hin Hf. vm_compute in Hin.
    in_log Hin; subst ev; [discriminate Hf | reflexivity | discriminate Hf].
  - split; [exact Hr|]. reflexivity.
Defined.

(** C8, as worded: the locator wait times out and the capture of the
    screenshot faults; [open_url] raises the fault of the capture, a
    [WebDriverException], and no [AssertionError]. *)
Lemma not_locator_timeout_asserts : ~ NavigationSpec.locator_timeout_asserts.
Proof.
  intros H.
  destruct (H unit (scripted_page NavigationSpec.lost_session) "https://hr.example/login"
              login_button (Some 3) (world0 empty_sys)
              (snd (open_url (scripted_page NavigationSpec.lost_session)
                      "https://hr.example/login" (Some login_button) (Some 3)
                      (world0 empty_sys)))
              (Raise WebDriverException) eq_refl eq_refl) as (msg & Hmsg).
  - right. right. left. reflexivity.
  - discriminate Hmsg.
Qed.

(** C8, amended. Whenever a stabilising locator is given to [open_url] and
    the wait for its visibility runs out of time, the last call of the run
    is the capture of a screenshot called
    [screenshots/open_url_wait_for_locator_timeout_<seconds>.png]; when the
    capture returns, [open_url] raises an [AssertionError] whose message
    ends with the path of that screenshot; when the capture faults,
    [open_url] raises the fault of the capture. *)
Theorem open_url_locator_timeout_raises {B} (self : Page B) (url : string)
    (loc : Locator) (timeout : option Z) (w w' : World B) (r : Res unit) :
  valid_url url = true ->
  open_url self url (Some loc) timeout w = (r, w') ->
  In (visible_timeout loc (timeout_or_default self timeout)) (new_events w w') ->
  exists fname shot,
    PyStr.startswith "screenshots/open_url_wait_for_locator_timeout_" fname = true /\
    last (new_events w w') = Some {| ev_call := CSaveScreenshot fname; ev_result := shot |} /\
    r = match shot with
        | Ok _ =>
            Raise (AssertionError ("Timed out waiting for locator "
                                   ++ repr_locator (driver self) loc
                                   ++ ". Screenshot: " ++ fname))
        | Raise e => Raise e
        end.
Proof.
  intros Hurl Hrun. apply valid_url_inv in Hurl as [H1 H2].
  unfold open_url in Hrun. rewrite H1, H2 in Hrun. unfold_calls Hrun.
  repeat next_branch Hrun; timeouts; log_of_run Hrun; intros Hin.
  all: try (in_log Hin; try discriminate Hin; injection Hin as ->; discriminate).
  all: eexists _, _; split; [apply startswith_app|]; split; reflexivity.
Qed.

Lemma open_url_locator_timeout_raises_witness :
  let page := scripted_page missing_landmark in
  let run := open_url page "https://hr.example/login" (Some login_button) (Some 3)
               (world0 empty_sys) in
  let lost := open_url (scripted_page NavigationSpec.lost_session)
                "https://hr.example/login" (Some login_button) (Some 3) (world0 empty_sys) in
  valid_url "https://hr.example/login" = true /\
  In (visible_timeout login_button 3) (new_events (world0 empty_sys) (snd run)) /\
  (exists fname shot,
     PyStr.startswith "screenshots/open_url_wait_for_locator_timeout_" fname = true /\
     last (new_events (world0 empty_sys) (snd run)) =
       Some {| ev_call := CSaveScreenshot fname; ev_result := shot |} /\
     fst run = match shot with
               | Ok _ =>
                   Raise (AssertionError
                            ("Timed out waiting for locator ('xpath', '//button')"
                             ++ ". Screenshot: " ++ fname))
               | Raise e => Raise e
               end) /\
  fst run = Raise (AssertionError
                     ("Timed out waiting for locator ('xpath', '//button'). Screenshot: "
                      ++ "screenshots/open_url_wait_for_locator_timeout_1700000000.png")) /\
  fst lost = Raise WebDriverException.
Proof.
  intros page run lost. split; [reflexivity|]. split; [right; right; left; reflexivity|].
  split; [|split; reflexivity].
  apply (open_url_locator_timeout_raises page "https://hr.example/login" login_button (Some 3)
           (world0 empty_sys) (snd run) (fst run) eq_refl eq_refl).
  right. right. left. reflexivity.
Defined.

(** ** Joining the base URL and the path *)

Lemma rstrip_spec (chars s : string) :
  exists k, s = PyStr.rstrip chars s ++ k /\
            PyStr.all (fun c => PyStr.mem c chars) k = true /\
            forall c, PyStr.mem c chars = true ->
                      PyStr.ends_with_char c (PyStr.rstrip chars s) = false.
Proof.
  induction s as [|a s (k & Hs & Hk & Hend)].
  - exists "". repeat split.
  - cbn [PyStr.rstrip]. destruct (PyStr.rstrip chars s) as [|b r] eqn:Hr.
    + destruct (PyStr.mem a chars) eqn:Ha.
      * exists (String a k). split; [|split].
        -- cbn. now rewrite Hs at 1.
        -- cbn [PyStr.all]. now rewrite Ha, Hk.
        -- reflexivity.
      * exists k. split; [|split].
        -- cbn. now rewrite Hs at 1.
        -- exact Hk.
        -- intros c Hc. cbn [PyStr.ends_with_char].
           destruct (Ascii.eqb_spec a c) as [->|]; [congruence|reflexivity].
    + exists k. split; [|split].
      * cbn. now rewrite Hs at 1.
      * exact Hk.
      * intros c Hc. specialize (Hend c Hc). exact Hend.
Qed.

Lemma lstrip_spec (chars s : string) :
  exists k, s = k ++ PyStr.lstrip chars s /\
            PyStr.all (fun c => PyStr.mem c chars) k = true /\
            forall c, PyStr.mem c chars = true ->
                      PyStr.startswith (String c "") (PyStr.lstrip chars s) = false.
Proof.
  induction s as [|a s (k & Hs & Hk & Hstart)].
  - exists "". repeat split.
  - cbn [PyStr.lstrip]. destruct (PyStr.mem a chars) eqn:Ha.
    + exists (String a k). split; [|split].
      * cbn. now rewrite Hs at 1.
      * cbn [PyStr.all]. now rewrite Ha, Hk.
      * exact Hstart.
    + exists "". split; [|split]; [reflexivity..|].
      intros c Hc. cbn [PyStr.startswith].
      destruct (Ascii.eqb_spec c a) as [->|]; [congruence|reflexivity].
Qed.

(** The joined URL is the base without its trailing slashes, one slash, and
    the path without its leading slashes. *)
Lemma join_url_one_separator (base path : string) :
  exists b p tail head,
    join_url base path = b ++ "/" ++ p /\
    base = b ++ tail /\ slashes tail = true /\ PyStr.ends_with_char "/" b = false /\
    path = head ++ p /\ slashes head = true /\ PyStr.startswith "/" p = false.
Proof.
  destruct (rstrip_spec "/" base) as (tail & Hb & Htail & Hend).
  destruct (lstrip_spec "/" path) as (head & Hp & Hhead & Hstart).
  exists (PyStr.rstrip "/" base), (PyStr.lstrip "/" path), tail, head.
  split; [reflexivity|]. split; [exact Hb|]. split; [exact Htail|].
  split; [now apply Hend|]. split; [exact Hp|]. split; [exact Hhead|].
  now apply Hstart.
Qed.

(** The base URL is always resolved to a string, and resolving it asks
    nothing of the session. *)
Lemma resolve_base_total {B} (w : World B) :
  exists base s',
    resolve_base w = (Ok base, {| clock := clock w; trace := trace w;
                                  browser := browser w; sys := s' |}).
Proof.
  unfold resolve_base, try_except, lift_sys, bind, ret.
  destruct (ReadConfig.get_user_login_url (sys w)) as [[base|e] s1]; cbn.
  - now exists base, s1.
  - unfold ReadConfig.getenv_default. cbn. eexists _, _. reflexivity.
Qed.

(** C2. For every path that does not start with [http://] or [https://],
    [open] resolves a base, and with a non-empty base it is [open_url] on
    the base without its trailing slashes, one slash, and the path without
    its leading slashes; with no base it raises [RuntimeError] and asks
    nothing of the session. *)
Theorem open_joins_with_one_slash {B} (self : Page B) (path : string)
    (wait_for_locator : option Locator) (timeout : option Z) (w : World B) :
  PyStr.startswith_any url_schemes path = false ->
  exists base w1,
    resolve_base w = (Ok base, w1) /\ trace w1 = trace w /\
    (base <> "" ->
       open self path wait_for_locator timeout w
       = open_url self (join_url base path) wait_for_locator timeout w1 /\
       exists b p tail head,
         join_url base path = b ++ "/" ++ p /\
         base = b ++ tail /\ slashes tail = true /\ PyStr.ends_with_char "/" b = false /\
         path = head ++ p /\ slashes head = true /\ PyStr.startswith "/" p = false) /\
    (base = "" ->
       exists msg, open self path wait_for_locator timeout w = (Raise (RuntimeError msg), w1)) /\
    join_url "http://host/" "/pim" = "http://host/pim" /\
    join_url "http://host" "pim" = "http://host/pim".
Proof.
  intros Hpath. destruct (resolve_base_total w) as (base & s' & Hbase).
  eexists base, _. split; [exact Hbase|]. split; [reflexivity|].
  unfold open. rewrite Hpath. rewrite (bind_ok _ _ _ _ _ Hbase).
  split; [|split; [|split; reflexivity]].
  - intros Hne. split; [|apply join_url_one_separator].
    destruct base; [congruence|reflexivity].
  - intros ->. eexists. reflexivity.
Qed.

Lemma open_joins_with_one_slash_witness :
  let page := scripted_page calm in
  let w := world0 sys_with_login_url in
  PyStr.startswith_any url_schemes "/pim" = false /\
  resolve_base w = (Ok "http://host/", w) /\
  open page "/pim" None None w = open_url page "http://host/pim" None None w /\
  fst (open page "/pim" None None w) = Ok tt /\
  In {| ev_call := CGet "http://host/pim"; ev_result := Ok VNone |}
     (trace (snd (open page "/pim" None None w))).
Proof.
  intros page w.
  destruct (open_joins_with_one_slash page "/pim" None None w eq_refl)
    as (base & w1 & Hbase & _ & Hjoin & _).
  assert (Hres : resolve_base w = (Ok "http://host/", w)) by reflexivity.
  rewrite Hres in Hbase. injection Hbase as <- <-.
  destruct Hjoin as [Hopen _]; [discriminate|].
  split; [reflexivity|]. split; [exact Hres|]. split; [exact Hopen|].
  split; [reflexivity|]. left. reflexivity.
Defined.

(** The base comes from [ReadConfig.get_user_login_url] when that call
    returns, and from the stripped [BASE_URL] when it raises. *)
Lemma resolve_base_sources {B} (w : World B) :
  fst (resolve_base w) =
    match ReadConfig.get_user_login_url (sys w) with
    | (Ok base, _) => Ok base
    | (Raise _, s1) =>
        Ok (PyStr.strip (match ReadConfig.environ s1 !! "BASE_URL" with
                         | Some v => v
                         | None => ""
                         end))
    end.
Proof.
  unfold resolve_base, try_except, lift_sys, bind, ret.
  destruct (ReadConfig.get_user_login_url (sys w)) as [[base|e] s1]; reflexivity.
Qed.

(** ** Polling for elements *)

Lemma poll_log_no_match loc evs r :
  poll_log loc evs r ->
  (forall ev, In ev evs -> ev_call ev = CFindElements loc ->
              ev_result ev = Ok (VElements [])) ->
  r = Ok [].
Proof.
  induction 1 as [|el els|e|evs r _ IH]; intros Hnone.
  - reflexivity.
  - specialize (Hnone _ (or_introl eq_refl) eq_refl). discriminate Hnone.
  - specialize (Hnone _ (or_introl eq_refl) eq_refl). discriminate Hnone.
  - apply IH. intros ev Hin. apply Hnone. right. right. exact Hin.
Qed.

(** The loop of [get_element_list], given rounds for the remaining
    milliseconds: its log is a poll log, and the empty list is returned at
    the deadline only. *)
Lemma get_element_list_loop_spec {B} (self : Page B) (loc : Locator) (end_ : Z) :
  forall (n : nat) (w w' : World B) (r : Res (list WebElement)),
    (Z.to_nat (end_ - clock w) < n)%nat ->
    get_element_list_loop self n loc end_ w = (r, w') ->
    exists evs, trace w' = (trace w ++ evs)%list /\
                poll_log loc evs r /\
                (r = Ok [] -> end_ <= clock w').
Proof.
  induction n as [|n IH]; intros w w' r Hn Hrun; [lia|].
  cbn [get_element_list_loop] in Hrun. unfold bind at 1 in Hrun. cbn [time] in Hrun.
  destruct (clock w <? end_) eqn:Hlt.
  - apply Z.ltb_lt in Hlt. unfold bind at 1, d_find_elements, invoke in Hrun.
    destruct (drv_find_elements (driver self) loc (browser w)) as [[[els|e] d] b] eqn:Hfind.
    + destruct els as [|el els].
      * unfold bind at 1, sleep in Hrun. cbn [clock trace browser sys res_map] in Hrun.
        apply IH in Hrun as (evs & Htr & Hlog & Hclock); [|cbn [clock]; lia].
        cbn [trace] in Htr. rewrite <- app_assoc in Htr.
        rewrite <- app_assoc in Htr.
        eexists. split; [exact Htr|]. split; [|exact Hclock].
        apply poll_again. exact Hlog.
      * unfold ret in Hrun. injection Hrun as <- <-.
        eexists. split; [reflexivity|]. split; [apply poll_found|discriminate].
    + injection Hrun as <- <-.
      eexists. split; [reflexivity|]. split; [apply poll_fault|discriminate].
  - apply Z.ltb_ge in Hlt. unfold ret in Hrun. injection Hrun as <- <-.
    exists []. split; [now rewrite app_nil_r|]. split; [apply poll_deadline|].
    intros _. exact Hlt.
Qed.

(** C4. The log of every [get_element_list] is a poll log: lookups 150
    milliseconds of sleep apart, until one finds an element or the deadline
    is reached.  When every lookup of the run found nothing, the call
    returns the empty list, not a fault; and the empty list is returned
    only once the timeout has elapsed. *)
Theorem get_element_list_empty_on_timeout {B} (self : Page B) (loc : Locator)
    (timeout : option Z) (w w' : World B) (r : Res (list WebElement)) :
  get_element_list self loc timeout w = (r, w') ->
  poll_log loc (new_events w w') r /\
  ((forall ev, In ev (new_events w w') -> ev_call ev = CFindElements loc ->
               ev_result ev = Ok (VElements [])) ->
   r = Ok []) /\
  (r = Ok [] -> clock w + 1000 * timeout_or_default self timeout <= clock w').
Proof.
  intros Hrun. unfold get_element_list in Hrun. unfold bind at 1 in Hrun.
  cbn [time] in Hrun.
  apply get_element_list_loop_spec in Hrun as (evs & Htr & Hlog & Hclock);
    [|unfold rounds; lia].
  rewrite (new_events_app _ _ _ Htr). split; [exact Hlog|]. split; [|exact Hclock].
  now apply poll_log_no_match.
Qed.

Lemma get_element_list_empty_on_timeout_witness :
  let page := scripted_page no_match in
  let run := get_element_list page login_button (Some 1) (world0 empty_sys) in
  fst run = Ok [] /\
  List.length (new_events (world0 empty_sys) (snd run)) = 14%nat /\
  poll_log login_button (new_events (world0 empty_sys) (snd run)) (fst run) /\
  clock (world0 empty_sys) + 1000 * 1 <= clock (snd run).
Proof.
  intros page run.
  destruct (get_element_list_empty_on_timeout page login_button (Some 1)
              (world0 empty_sys) (snd run) (fst run) eq_refl) as (Hlog & Hempty & Hclock).
  assert (Hr : fst run = Ok []).
  { apply Hempty. intros ev Hin Hcall. vm_compute in Hin.
    in_log Hin; subst ev; reflexivity || discriminate Hcall. }
  split; [exact Hr|]. split; [vm_compute; reflexivity|]. split; [exact Hlog|].
  apply Hclock. exact Hr.
Defined.

(** ** Typing and verifying *)

(** The wording read on the untrimmed value does not hold: the field holds
    exactly the requested text ["ab "] and every poll reads it from the
    value attribute, yet no poll ends the call; the script fallback runs
    and the call returns ["ab"]. *)
Lemma not_returns_at_equal_value : ~ returns_at_equal_value.
Proof.
  intros H.
  specialize (H unit (scripted_page padded_field) name_field "ab " (Some 1)
                true false false (world0 empty_sys)).
  specialize (H (snd (type_and_verify (scripted_page padded_field) name_field "ab " (Some 1)
                        true false false (world0 empty_sys)))
                (Ok "ab") 7%N).
  assert (Hrun : type_and_verify (scripted_page padded_field) name_field "ab " (Some 1)
                   true false false (world0 empty_sys)
                 = (Ok "ab",
                    snd (type_and_verify (scripted_page padded_field) name_field "ab " (Some 1)
                           true false false (world0 empty_sys))))
    by (vm_compute; reflexivity).
  specialize (H Hrun).
  assert (Hread : In {| ev_call := CGetAttribute 7%N "value";
                        ev_result := Ok (VOptStr (Some "ab ")) |}
                     (new_events (world0 empty_sys)
                        (snd (type_and_verify (scripted_page padded_field) name_field "ab "
                                (Some 1) true false false (world0 empty_sys)))))
    by (vm_compute; tauto).
  specialize (H Hread). discriminate H.
Qed.

Lemma feed_app el text ap s evs1 evs2 :
  feed el text ap s (evs1 ++ evs2)%list =
    match feed el text ap s evs1 with
    | Some s' => feed el text ap s' evs2
    | None => None
    end.
Proof.
  revert s. induction evs1 as [|ev evs1 IH]; intros s; cbn [feed app]; [reflexivity|].
  destruct (step el text ap s ev); [apply IH|reflexivity].
Qed.

Lemma calls_same c r : calls c {| ev_call := c; ev_result := r |} = true.
Proof. unfold calls. now apply bool_decide_eq_true_2. Qed.

Lemma calls_other c c' r : c' <> c -> calls c {| ev_call := c'; ev_result := r |} = false.
Proof. intros H. unfold calls. now apply bool_decide_eq_false_2. Qed.

Lemma or_else_empty t : PyStr.or_else t "" = t.
Proof. unfold PyStr.or_else, PyStr.truthy. now destruct t. Qed.

(** One evaluation of [read_value]: the value attribute alone when it is
    there and not empty, the rendered text after it otherwise; a fault of
    either read is the fault of [read_value]. *)
Lemma read_value_spec {B} (self : Page B) (el : WebElement) (w w1 : World B) (r : Res string) :
  read_value self el w = (r, w1) ->
  clock w <= clock w1 /\
  exists evs, trace w1 = (trace w ++ evs)%list /\ Forall passive evs /\
    ((exists v, PyStr.truthy (PyStr.opt_or_empty v) = true /\
                evs = [ {| ev_call := CGetAttribute el "value"; ev_result := Ok (VOptStr v) |} ] /\
                r = Ok (PyStr.strip (PyStr.opt_or_empty v))) \/
     (exists v t, PyStr.truthy (PyStr.opt_or_empty v) = false /\
                  evs = [ {| ev_call := CGetAttribute el "value"; ev_result := Ok (VOptStr v) |};
                          {| ev_call := CText el; ev_result := Ok (VStr t) |} ] /\
                  r = Ok (PyStr.strip t)) \/
     (exists e, evs = [ {| ev_call := CGetAttribute el "value"; ev_result := Raise e |} ] /\
                r = Raise e) \/
     (exists v e, PyStr.truthy (PyStr.opt_or_empty v) = false /\
                  evs = [ {| ev_call := CGetAttribute el "value"; ev_result := Ok (VOptStr v) |};
                          {| ev_call := CText el; ev_result := Raise e |} ] /\
                  r = Raise e)).
Proof.
  intros Hrun. unfold read_value in Hrun. unfold_calls Hrun.
  next_reply Hrun.
  - destruct (PyStr.truthy (PyStr.opt_or_empty a)) eqn:Hv.
    + injection Hrun as <- <-. cbn [clock trace]. split; [lia|].
      eexists. split; [reflexivity|]. split; [repeat constructor|].
      left. now exists a.
    + next_reply Hrun; injection Hrun as <- <-; cbn [clock trace]; (split; [lia|]);
        (eexists; split; [now rewrite <- app_assoc|]); (split; [repeat constructor|]).
      * right. left. exists a, a0. now rewrite or_else_empty.
      * right. right. right. now exists a, e.
  - injection Hrun as <- <-. cbn [clock trace]. split; [lia|].
    eexists. split; [reflexivity|]. split; [repeat constructor|].
    right. right. left. now exists e.
Qed.

(** A poll: the read with its faults turned into the empty string.  The
    protocol, standing at [Polling], follows its log to the phase that
    records the value the poll yields. *)
Lemma poll_read_spec {B} (self : Page B) el text ap last_val (w w1 : World B) (r : Res string) :
  try_except (read_value self el) is_Exception (fun _ => ret "") w = (r, w1) ->
  clock w <= clock w1 /\
  exists v evs, r = Ok v /\ trace w1 = (trace w ++ evs)%list /\ Forall passive evs /\
    feed el text ap (Polling last_val) evs = Some (recorded text ap v).
Proof.
  unfold try_except. destruct (read_value self el w) as [r0 w0] eqn:Hread.
  apply read_value_spec in Hread as (Hclock & evs & Htr & Hpass & Hcases).
  intros Hrun.
  assert (Hw : w1 = w0 /\ r = Ok (match r0 with Ok v => v | Raise _ => "" end)).
  { destruct r0; cbn in Hrun; unfold ret in Hrun; now injection Hrun as <- <-. }
  destruct Hw as [-> ->]. split; [exact Hclock|].
  eexists _, evs. split; [reflexivity|]. split; [exact Htr|]. split; [exact Hpass|].
  destruct Hcases as [(v & Hv & -> & ->)|[(v & t & Hv & -> & ->)|
                     [(e & -> & ->)|(v & e & Hv & -> & ->)]]];
    cbn [feed step ev_result]; rewrite ?calls_same, ?Hv; cbn [feed step ev_result];
    rewrite ?calls_same; reflexivity.
Qed.

(** The re-check after the script: the protocol, standing at [Rechecking],
    finishes on the value read, or on the value it held when the read
    faults. *)
Lemma recheck_read_spec {B} (self : Page B) el text ap last_val (w w1 : World B)
    (r : Res string) :
  read_value self el w = (r, w1) ->
  clock w <= clock w1 /\
  exists evs, trace w1 = (trace w ++ evs)%list /\ Forall passive evs /\
    feed el text ap (Rechecking last_val) evs
    = Some (Finished (match r with Ok v => v | Raise _ => last_val end)).
Proof.
  intros Hread.
  apply read_value_spec in Hread as (Hclock & evs & Htr & Hpass & Hcases).
  split; [exact Hclock|]. exists evs. split; [exact Htr|]. split; [exact Hpass|].
  destruct Hcases as [(v & Hv & -> & ->)|[(v & t & Hv & -> & ->)|
                     [(e & -> & ->)|(v & e & Hv & -> & ->)]]];
    cbn [feed step ev_result]; rewrite ?calls_same, ?Hv; cbn [feed step ev_result];
    rewrite ?calls_same; reflexivity.
Qed.

(** The polling loop of [type_and_verify], given rounds for the remaining
    milliseconds: it never raises; it is left by [return] on a value the
    protocol finishes on, or at the deadline with the protocol back at
    [Polling] on the loop's last value. *)
Lemma type_and_verify_loop_spec {B} (self : Page B) el text ap (end_ : Z) :
  forall (n : nat) (last_val : string) (w w' : World B) (r : Res PollExit),
    (Z.to_nat (end_ - clock w) < n)%nat ->
    type_and_verify_loop self n el text ap end_ last_val w = (r, w') ->
    clock w <= clock w' /\
    exists evs, trace w' = (trace w ++ evs)%list /\ Forall passive evs /\
      ((exists v, r = Ok (Returned v) /\
                  feed el text ap (Polling last_val) evs = Some (Finished v)) \/
       (exists l, r = Ok (Exhausted l) /\
                  feed el text ap (Polling last_val) evs = Some (Polling l) /\
                  end_ <= clock w')).
Proof.
  induction n as [|n IH]; intros last_val w w' r Hn Hrun; [lia|].
  cbn [type_and_verify_loop] in Hrun. unfold bind at 1 in Hrun. cbn [time] in Hrun.
  destruct (clock w <? end_) eqn:Hlt.
  - apply Z.ltb_lt in Hlt. unfold bind at 1 in Hrun.
    destruct (try_except (read_value self el) is_Exception (fun _ => ret "") w)
      as [r1 w1] eqn:Hpoll.
    apply (poll_read_spec self el text ap last_val) in Hpoll
      as (Hclock1 & v & evs1 & -> & Htr1 & Hpass1 & Hfeed1).
    unfold recorded in Hfeed1.
    destruct (accepted text ap v) eqn:Hacc.
    + unfold ret in Hrun. injection Hrun as <- <-. split; [exact Hclock1|].
      exists evs1. split; [exact Htr1|]. split; [exact Hpass1|]. left. now exists v.
    + unfold bind at 1, sleep in Hrun.
      apply IH in Hrun as (Hclock2 & evs2 & Htr2 & Hpass2 & Hcases); [|cbn [clock]; lia].
      cbn [clock trace] in Hclock2, Htr2. split; [lia|].
      exists (evs1 ++ slept 120 :: evs2)%list. split; [|split].
      * rewrite Htr2, Htr1. now rewrite <- !app_assoc.
      * apply Forall_app. split; [exact Hpass1|].
        constructor; [split; reflexivity|exact Hpass2].
      * rewrite feed_app, Hfeed1. cbn [feed step]. unfold slept.
        rewrite calls_same. exact Hcases.
  - apply Z.ltb_ge in Hlt. unfold ret in Hrun. injection Hrun as <- <-.
    split; [lia|]. exists []. split; [now rewrite app_nil_r|]. split; [constructor|].
    right. now exists last_val.
Qed.

Lemma type_and_verify_unfold {B} (self : Page B) loc text timeout
    (clear_first allow_partial send_enter : bool) :
  type_and_verify self loc text timeout clear_first allow_partial send_enter =
    (el <- find_visible self loc timeout ;;
     try_except (e_click self el) is_WebDriverException (fun _ => ret tt) ;;;
     (if clear_first then clear_element self el else ret tt) ;;;
     e_send_keys self el [Text text] ;;;
     (if send_enter then e_send_keys self el [ENTER] else ret tt) ;;;
     try_except (e_send_keys self el [TAB]) is_Exception (fun _ => ret tt) ;;;
     verification self el text timeout allow_partial).
Proof. reflexivity. Qed.

Lemma passive_verification evs :
  Forall passive evs -> Forall (fun ev => is_verification ev = true) evs.
Proof. induction 1 as [|ev evs [Hv _] _ IH]; constructor; assumption. Qed.

Lemma passive_no_script evs :
  Forall passive evs -> ~ Exists (fun ev => is_script ev = true) evs.
Proof.
  intros Hpass Hex. apply Exists_exists in Hex as (ev & Hin & Hs).
  rewrite Forall_forall in Hpass. destruct (Hpass ev Hin) as [_ Hn]. congruence.
Qed.

(** The script fallback, entered at the deadline with the protocol at
    [Polling l]: one script, and, when it returned, one sleep and one read;
    it never raises. *)
Lemma fallback_spec {B} (self : Page B) el text ap (l : string) (w w' : World B)
    (r : Res string) :
  try_except
    (d_execute_script self set_value_script [ArgElement el; ArgStr text] ;;;
     sleep 120 ;;;
     last_val <- read_value self el ;;
     if accepted text ap last_val then ret last_val else ret last_val)
    is_Exception (fun _ => ret l) w = (r, w') ->
  clock w <= clock w' /\
  exists v evs, r = Ok v /\ trace w' = (trace w ++ evs)%list /\
    Forall (fun ev => is_verification ev = true) evs /\
    feed el text ap (Polling l) evs = Some (Finished v).
Proof.
  intros Hrun. unfold try_except, bind at 1, d_execute_script, invoke in Hrun.
  destruct (drv_execute_script (driver self) set_value_script
              [ArgElement el; ArgStr text] (browser w)) as [[[[]|e] d] b] eqn:Hscript;
    cbn [res_map is_Exception] in Hrun.
  - unfold bind at 1, sleep in Hrun. cbn [clock trace browser sys] in Hrun.
    unfold bind at 1 in Hrun.
    match type of Hrun with
    | context [read_value self el ?w0] =>
        destruct (read_value self el w0) as [r2 w2] eqn:Hread
    end.
    apply (recheck_read_spec self el text ap l) in Hread
      as (Hclock & evs & Htr & Hpass & Hfeed).
    cbn [clock trace] in Hclock, Htr.
    assert (Hw : w' = w2 /\ r = Ok (match r2 with Ok v => v | Raise _ => l end)).
    { destruct r2 as [v|e]; cbn in Hrun; unfold ret in Hrun.
      - destruct (accepted text ap v); now injection Hrun as <- <-.
      - now injection Hrun as <- <-. }
    destruct Hw as [-> ->]. split; [lia|].
    eexists _, (_ :: slept 120 :: evs). split; [reflexivity|]. split; [|split].
    + rewrite Htr. now rewrite <- !app_assoc.
    + constructor; [reflexivity|]. constructor; [reflexivity|].
      now apply passive_verification.
    + cbn [feed step ev_result]. rewrite calls_other by discriminate.
      rewrite calls_same. unfold slept. cbn [feed step]. rewrite calls_same.
      exact Hfeed.
  - unfold ret in Hrun. injection Hrun as <- <-. cbn [clock trace]. split; [lia|].
    eexists _, [_]. split; [reflexivity|]. split; [reflexivity|]. split.
    + constructor; [reflexivity|constructor].
    + cbn [feed step ev_result]. rewrite calls_other by discriminate.
      now rewrite calls_same.
Qed.

Lemma verification_verified {B} (self : Page B) el text timeout ap :
  verified_run el text ap (timeout_or_default self timeout)
    (verification (B:=B) self el text timeout ap).
Proof.
  intros w r w' Hrun. unfold verification in Hrun. unfold bind at 1 in Hrun.
  cbn [time] in Hrun. unfold bind at 1 in Hrun.
  match type of Hrun with
  | context [type_and_verify_loop self ?n el text ap ?e "" w] =>
      destruct (type_and_verify_loop self n el text ap e "" w) as [r1 w1] eqn:Hloop
  end.
  apply type_and_verify_loop_spec in Hloop
    as (Hclock1 & evs1 & Htr1 & Hpass1 & Hcases); [|unfold rounds; lia].
  destruct Hcases as [(v & -> & Hfeed)|(l & -> & Hfeed & Hend)].
  - unfold ret in Hrun. injection Hrun as <- <-. split; [exact Hclock1|].
    exists [], evs1. split; [exact Htr1|]. split; [constructor|].
    split; [now apply passive_verification|]. split; [exact Hfeed|].
    intros Hex. now apply passive_no_script in Hex.
  - apply fallback_spec in Hrun as (Hclock2 & v & evs2 & -> & Htr2 & Hver2 & Hfeed2).
    split; [lia|]. exists [], (evs1 ++ evs2)%list. split; [|split; [constructor|split; [|split]]].
    + rewrite Htr2, Htr1. now rewrite <- app_assoc.
    + apply Forall_app. split; [now apply passive_verification|exact Hver2].
    + now rewrite feed_app, Hfeed.
    + intros _. lia.
Qed.

Lemma typing_only_ret {B A} (a : A) : typing_only (B:=B) (ret a).
Proof.
  intros w r w' Hrun. unfold ret in Hrun. injection Hrun as <- <-.
  split; [lia|]. exists []. split; [now rewrite app_nil_r|]. split; [constructor|].
  discriminate.
Qed.

Lemma typing_only_invoke {B A} (c : Call) (inj : A -> Value) (op : B -> Reply A B) :
  (forall r, is_verification {| ev_call := c; ev_result := r |} = false) ->
  typing_only (invoke c inj op).
Proof.
  intros Hc w r w' Hrun. unfold invoke in Hrun.
  destruct (op (browser w)) as [[r0 d] b]. injection Hrun as <- <-.
  cbn [clock trace]. split; [lia|]. eexists [_]. split; [reflexivity|].
  split; [constructor; [apply Hc|constructor]|].
  intros e ->. now exists c.
Qed.

Lemma last_app_cons {A} (l1 l2 : list A) (x : A) :
  last l2 = Some x -> last (l1 ++ l2) = Some x.
Proof. intros H. rewrite last_app. now rewrite H. Qed.

Lemma typing_only_bind {B A C} (m : M (World B) A) (k : A -> M (World B) C) :
  typing_only m -> (forall a, typing_only (k a)) -> typing_only (bind m k).
Proof.
  intros Hm Hk w r w' Hrun. unfold bind in Hrun.
  destruct (m w) as [[a|e] w1] eqn:Hmw;
    apply Hm in Hmw as (Hclock1 & evs1 & Htr1 & Hq1 & Hlast1).
  - apply Hk in Hrun as (Hclock2 & evs2 & Htr2 & Hq2 & Hlast2).
    split; [lia|]. exists (evs1 ++ evs2)%list. split; [|split].
    + rewrite Htr2, Htr1. now rewrite <- app_assoc.
    + apply Forall_app. now split.
    + intros e He. destruct (Hlast2 e He) as (c & Hc). exists c.
      now apply last_app_cons.
  - injection Hrun as <- <-. split; [exact Hclock1|]. exists evs1.
    split; [exact Htr1|]. split; [exact Hq1|].
    intros e0 He0. injection He0 as <-. now apply Hlast1.
Qed.

Lemma typing_only_try {B A} (m : M (World B) A) cls (h : exn -> M (World B) A) :
  typing_only m -> (forall e, typing_only (h e)) -> typing_only (try_except m cls h).
Proof.
  intros Hm Hh w r w' Hrun. unfold try_except in Hrun.
  destruct (m w) as [[a|e] w1] eqn:Hmw;
    apply Hm in Hmw as (Hclock1 & evs1 & Htr1 & Hq1 & Hlast1).
  - injection Hrun as <- <-. split; [exact Hclock1|]. exists evs1.
    split; [exact Htr1|]. split; [exact Hq1|exact Hlast1].
  - destruct (cls e).
    + apply Hh in Hrun as (Hclock2 & evs2 & Htr2 & Hq2 & Hlast2).
      split; [lia|]. exists (evs1 ++ evs2)%list. split; [|split].
      * rewrite Htr2, Htr1. now rewrite <- app_assoc.
      * apply Forall_app. now split.
      * intros e' He. destruct (Hlast2 e' He) as (c & Hc). exists c.
        now apply last_app_cons.
    + injection Hrun as <- <-. split; [exact Hclock1|]. exists evs1.
      split; [exact Htr1|]. split; [exact Hq1|exact Hlast1].
Qed.

Lemma typing_only_if {B A} (b : bool) (m1 m2 : M (World B) A) :
  typing_only m1 -> typing_only m2 -> typing_only (if b then m1 else m2).
Proof. now destruct b. Qed.

Lemma typing_only_clear_element {B} (self : Page B) el :
  typing_only (clear_element self el).
Proof.
  unfold clear_element. apply typing_only_try; [now apply typing_only_invoke|].
  intros _. apply typing_only_try; [now apply typing_only_invoke|].
  intros _. apply typing_only_ret.
Qed.

Lemma verified_run_bind {B A} el text ap t (m : M (World B) A) (k : A -> M (World B) string) :
  typing_only m -> (forall a, verified_run el text ap t (k a)) ->
  verified_run el text ap t (bind m k).
Proof.
  intros Hm Hk w r w' Hrun. unfold bind in Hrun.
  destruct (m w) as [[a|e] w1] eqn:Hmw;
    apply Hm in Hmw as (Hclock1 & evs1 & Htr1 & Hq1 & Hlast1).
  - apply Hk in Hrun as (Hclock2 & typed & checked & Htr2 & Hq2 & Hv2 & Hres & Hscript).
    split; [lia|]. exists (evs1 ++ typed)%list, checked. split; [|split; [|split; [|split]]].
    + rewrite Htr2, Htr1. now rewrite <- !app_assoc.
    + apply Forall_app. now split.
    + exact Hv2.
    + destruct r as [v|e]; [exact Hres|].
      destruct Hres as (Hnil & c & Hc). split; [exact Hnil|]. exists c.
      now apply last_app_cons.
    + intros Hex. specialize (Hscript Hex). lia.
  - injection Hrun as <- <-. split; [exact Hclock1|]. exists evs1, [].
    split; [now rewrite app_nil_r|]. split; [exact Hq1|]. split; [constructor|].
    split; [split; [reflexivity|now apply Hlast1]|].
    intros Hex. now apply Exists_nil in Hex.
Qed.

(** From the resolved element on, [type_and_verify] types, then verifies. *)
Lemma typed_then_verified {B} (self : Page B) el text timeout
    (clear_first allow_partial send_enter : bool) :
  verified_run el text allow_partial (timeout_or_default self timeout)
    (try_except (e_click self el) is_WebDriverException (fun _ => ret tt) ;;;
     (if clear_first then clear_element self el else ret tt) ;;;
     e_send_keys self el [Text text] ;;;
     (if send_enter then e_send_keys self el [ENTER] else ret tt) ;;;
     try_except (e_send_keys self el [TAB]) is_Exception (fun _ => ret tt) ;;;
     verification (B:=B) self el text timeout allow_partial).
Proof.
  apply verified_run_bind.
  { apply typing_only_try; [now apply typing_only_invoke|]. intros _. apply typing_only_ret. }
  intros _. apply verified_run_bind.
  { apply typing_only_if; [apply typing_only_clear_element|apply typing_only_ret]. }
  intros _. apply verified_run_bind; [now apply typing_only_invoke|].
  intros _. apply verified_run_bind.
  { apply typing_only_if; [now apply typing_only_invoke|apply typing_only_ret]. }
  intros _. apply verified_run_bind.
  { apply typing_only_try; [now apply typing_only_invoke|]. intros _. apply typing_only_ret. }
  intros _. apply verification_verified.
Qed.

Lemma filter_verification typed checked :
  Forall (fun ev => is_verification ev = false) typed ->
  Forall (fun ev => is_verification ev = true) checked ->
  List.filter is_verification (typed ++ checked) = checked.
Proof.
  intros Ht Hc. rewrite List.filter_app.
  assert (H1 : List.filter is_verification typed = []).
  { induction Ht as [|ev typed Hev _ IH]; cbn; [reflexivity|]. now rewrite Hev. }
  assert (H2 : List.filter is_verification checked = checked).
  { induction Hc as [|ev checked Hev _ IH]; cbn; [reflexivity|]. now rewrite Hev, IH. }
  now rewrite H1, H2.
Qed.

(** The log of a call of [type_and_verify]: typing calls with a fault at
    the end, or typing calls and a log of the protocol that finishes on the
    value returned. *)
Lemma type_and_verify_protocol {B} (self : Page B) (loc : Locator)
    (text : string) (timeout : option Z) (clear_first allow_partial send_enter : bool)
    (w w' : World B) (r : Res string) :
  type_and_verify self loc text timeout clear_first allow_partial send_enter w = (r, w') ->
  match r with
  | Ok v =>
      exists el,
        feed el text allow_partial (Polling "")
          (List.filter is_verification (new_events w w')) = Some (Finished v)
  | Raise e =>
      Forall (fun ev => is_verification ev = false) (new_events w w') /\
      exists c, last (new_events w w') = Some {| ev_call := c; ev_result := Raise e |}
  end /\
  (Exists (fun ev => is_script ev = true) (new_events w w') ->
   clock w + 1000 * timeout_or_default self timeout <= clock w').
Proof.
  intros Hrun. rewrite type_and_verify_unfold in Hrun. unfold bind at 1 in Hrun.
  destruct (find_visible self loc timeout w) as [[el|e] w1] eqn:Hfind.
  - assert (Hf : typing_only (find_visible self loc timeout))
      by now apply typing_only_invoke.
    apply Hf in Hfind as (Hclock1 & evs1 & Htr1 & Hq1 & _).
    apply typed_then_verified in Hrun
      as (Hclock2 & typed & checked & Htr2 & Hq2 & Hv2 & Hres & Hscript).
    assert (Htr : trace w' = (trace w ++ (evs1 ++ typed) ++ checked)%list)
      by (rewrite Htr2, Htr1; now rewrite <- !app_assoc).
    assert (Hq : Forall (fun ev => is_verification ev = false) (evs1 ++ typed)%list)
      by (apply Forall_app; now split).
    rewrite (new_events_app _ _ _ Htr). split.
    + destruct r as [v|e].
      * exists el. now rewrite filter_verification.
      * destruct Hres as (-> & c & Hc). rewrite app_nil_r. split; [exact Hq|].
        exists c. now apply last_app_cons.
    + intros Hex. apply Exists_app in Hex as [Hex|Hex].
      * exfalso. apply Exists_exists in Hex as (ev & Hin & Hs).
        rewrite Forall_forall in Hq. specialize (Hq ev Hin).
        unfold is_script in Hs. unfold is_verification in Hq.
        destruct (ev_call ev); discriminate.
      * specialize (Hscript Hex). lia.
  - assert (Hf : typing_only (find_visible self loc timeout))
      by now apply typing_only_invoke.
    apply Hf in Hfind as (Hclock1 & evs1 & Htr1 & Hq1 & Hlast1).
    injection Hrun as <- <-. rewrite (new_events_app _ _ _ Htr1). split.
    + split; [exact Hq1|now apply Hlast1].
    + intros Hex. exfalso. apply Exists_exists in Hex as (ev & Hin & Hs).
      rewrite Forall_forall in Hq1. specialize (Hq1 ev Hin).
      unfold is_script in Hs. unfold is_verification in Hq1.
      destruct (ev_call ev); discriminate.
Qed.

Lemma filter_script_verification evs :
  List.filter is_script evs = List.filter is_script (List.filter is_verification evs).
Proof.
  induction evs as [|ev evs IH]; [reflexivity|]. cbn [List.filter].
  destruct (is_verification ev) eqn:Hv; cbn [List.filter].
  - now rewrite IH.
  - assert (Hs : is_script ev = false).
    { unfold is_script. unfold is_verification in Hv. now destruct (ev_call ev). }
    now rewrite Hs.
Qed.

Lemma calls_script c ev :
  calls c ev = true -> is_script ev = match c with CExecuteScript _ _ => true | _ => false end.
Proof.
  unfold calls, is_script. intros H. apply bool_decide_eq_true_1 in H. now rewrite H.
Qed.

(** One step of the protocol: a script uses up the one the phase allows. *)
Lemma step_scripts el text ap s ev s' :
  step el text ap s ev = Some s' ->
  ((if is_script ev then 1 else 0) + scripts_left s' <= scripts_left s)%nat.
Proof.
  destruct s; cbn [step scripts_left];
    repeat match goal with
           | |- context [if calls ?c ev then _ else _] =>
               let Hc := fresh "Hc" in
               destruct (calls c ev) eqn:Hc; [apply calls_script in Hc; rewrite Hc|]
           end;
    try discriminate;
    unfold recorded;
    repeat match goal with
           | |- context [match ?x with _ => _ end] => destruct x
           end;
    intros H; try discriminate H; injection H as <-; cbn [scripts_left]; lia.
Qed.

(** A log of the protocol holds no more scripts than its first phase allows. *)
Lemma feed_scripts el text ap evs : forall s s',
  feed el text ap s evs = Some s' ->
  (List.length (List.filter is_script evs) + scripts_left s' <= scripts_left s)%nat.
Proof.
  induction evs as [|ev evs IH]; intros s s' Hfeed; cbn [feed] in Hfeed.
  - injection Hfeed as <-. cbn. lia.
  - destruct (step el text ap s ev) as [s1|] eqn:Hstep; [|discriminate].
    apply step_scripts in Hstep. apply IH in Hfeed. cbn [List.filter].
    destruct (is_script ev); cbn [List.length]; lia.
Qed.

(** What [type_and_verify] does on the trimmed observations.  A call that
    raises has made no verification call and its fault is the fault of its
    last call.  A call that returns [v] has made reads, sleeps and scripts
    that are, in order, a log of the protocol for some element, from
    [Polling ""] to [Finished v].  The script runs at most once, and only
    once the timeout has gone by. *)
Lemma type_and_verify_returns_last_recorded {B} (self : Page B) (loc : Locator)
    (text : string) (timeout : option Z) (clear_first allow_partial send_enter : bool)
    (w w' : World B) (r : Res string) :
  type_and_verify self loc text timeout clear_first allow_partial send_enter w = (r, w') ->
  match r with
  | Ok v =>
      exists el,
        feed el text allow_partial (Polling "")
          (List.filter is_verification (new_events w w')) = Some (Finished v)
  | Raise e =>
      Forall (fun ev => is_verification ev = false) (new_events w w') /\
      exists c, last (new_events w w') = Some {| ev_call := c; ev_result := Raise e |}
  end /\
  (List.length (List.filter is_script (new_events w w')) <= 1)%nat /\
  (Exists (fun ev => is_script ev = true) (new_events w w') ->
   clock w + 1000 * timeout_or_default self timeout <= clock w').
Proof.
  intros Hrun. apply type_and_verify_protocol in Hrun as [Hres Hclock].
  split; [exact Hres|]. split; [|exact Hclock].
  rewrite filter_script_verification. destruct r as [v|e].
  - destruct Hres as (el & Hfeed). apply feed_scripts in Hfeed.
    cbn [scripts_left] in Hfeed. now rewrite Nat.add_0_r in Hfeed.
  - destruct Hres as (Hq & _).
    pose proof (filter_verification _ [] Hq ltac:(constructor)) as Hnil.
    rewrite app_nil_r in Hnil. rewrite Hnil. cbn [List.filter List.length]. apply Nat.le_0_l.
Qed.

Lemma type_and_verify_returns_last_recorded_witness :
  let w := world0 empty_sys in
  let run := type_and_verify (scripted_page padded_field) name_field "ab " (Some 1)
               true false false w in
  fst run = Ok "ab" /\
  (exists el,
     feed el "ab " false (Polling "")
       (List.filter is_verification (new_events w (snd run))) = Some (Finished "ab")) /\
  (List.length (List.filter is_script (new_events w (snd run))) <= 1)%nat /\
  Exists (fun ev => is_script ev = true) (new_events w (snd run)) /\
  clock w + 1000 * 1 <= clock (snd run).
Proof.
  intros w run.
  assert (Hrun : type_and_verify (scripted_page padded_field) name_field "ab " (Some 1)
                   true false false w = (Ok "ab", snd run)) by (vm_compute; reflexivity).
  destruct (type_and_verify_returns_last_recorded (scripted_page padded_field) name_field
              "ab " (Some 1) true false false w (snd run) (Ok "ab") Hrun)
    as (Hfeed & Hcount & Hclock).
  assert (Hex : Exists (fun ev => is_script ev = true) (new_events w (snd run))).
  { apply Exists_exists.
    exists {| ev_call := CExecuteScript set_value_script [ArgElement 7%N; ArgStr "ab "];
              ev_result := Ok VNone |}.
    split; [vm_compute; repeat (try (left; reflexivity); right)|reflexivity]. }
  split; [reflexivity|]. split; [exact Hfeed|]. split; [exact Hcount|].
  split; [exact Hex|]. apply Hclock. exact Hex.
Defined.

(** A field that takes the keys as they are typed: the first poll reads the
    text and the call returns it, with no sleep and no script. *)
Lemma type_and_verify_first_poll :
  let w := world0 empty_sys in
  let run := type_and_verify (scripted_page calm) name_field "Dashboard" None
               true false false w in
  fst run = Ok "Dashboard" /\
  List.filter is_verification (new_events w (snd run)) =
    [ {| ev_call := CGetAttribute 7%N "value"; ev_result := Ok (VOptStr (Some "Dashboard")) |} ].
Proof. split; vm_compute; reflexivity. Qed.

(** The log of the padded field: eight polls 120 ms apart, none accepted,
    then the script, the settle delay and the re-check; nine reads, nine
    sleeps and one script in all. *)
Lemma type_and_verify_padded_log :
  let w := world0 empty_sys in
  let run := type_and_verify (scripted_page padded_field) name_field "ab " (Some 1)
               true false false w in
  List.length (List.filter (calls (CGetAttribute 7%N "value")) (new_events w (snd run)))
    = 9%nat /\
  List.length (List.filter (calls (CSleep 120)) (new_events w (snd run))) = 9%nat /\
  List.length (List.filter is_script (new_events w (snd run))) = 1%nat.
Proof. repeat split; vm_compute; reflexivity. Qed.

(** C1. The code at the failing input.  The text asked for is ["ab "] and
    the value attribute of the field reads exactly ["ab "] at every one of
    the nine reads of the run.  No poll ends the call: the value is
    trimmed before it is compared with the untrimmed text.  The polls go
    on until the timeout, the script fallback runs, and the value returned
    is ["ab"], which is not the text. *)
Theorem type_and_verify_misses_padded_text :
  let w := world0 empty_sys in
  let run := type_and_verify (scripted_page padded_field) name_field "ab " (Some 1)
               true false false w in
  fst run = Ok "ab" /\
  "ab" <> "ab " /\
  List.filter (calls (CGetAttribute 7%N "value")) (new_events w (snd run))
  = repeat {| ev_call := CGetAttribute 7%N "value";
              ev_result := Ok (VOptStr (Some "ab ")) |} 9 /\
  List.length (List.filter (calls (CSleep 120)) (new_events w (snd run))) = 9%nat /\
  List.filter is_script (new_events w (snd run))
  = [ {| ev_call := CExecuteScript set_value_script [ArgElement 7%N; ArgStr "ab "];
         ev_result := Ok VNone |} ] /\
  accepted "ab " false (PyStr.strip "ab ") = false.
Proof.
  intros w run. split; [vm_compute; reflexivity|]. split; [discriminate|].
  repeat split; vm_compute; reflexivity.
Qed.

(** * Further properties *)

(** ** utilities/random_data.py *)

Import RandomSpec.

(** X1. With [allow_leading_zero=True], [employee_id] returns decimal
    digits only, as many as [max(length, 0)]: the empty string for a zero
    or negative length. *)
Theorem employee_id_leading_zero_allowed (length : Z) (g : Entropy) :
  exists (s : string) (g' : Entropy),
    employee_id length true g = (Ok s, g') /\
    PyStr.all PyStr.is_digit s = true /\
    String.length s = Z.to_nat (Z.max length 0) /\
    (length <= 0 -> s = "").
Proof.
  destruct (choice_list_ok digits PyStr.is_digit (Z.to_nat length)
              ltac:(simpl; lia) get_char_digits_is_digit g)
    as (cs & g' & Hcs & Hl & Hall).
  exists (PyStr.join cs), g'. split; [|split; [exact Hall|split]].
  - unfold employee_id. now rewrite (bind_ok _ _ _ _ _ Hcs).
  - rewrite string_length_join, Hl. lia.
  - intros Hle. destruct cs as [|c cs]; [reflexivity|]. cbn in Hl. lia.
Qed.

Lemma string_length_app (s t : string) :
  String.length (s ++ t) = (String.length s + String.length t)%nat.
Proof.
  induction s as [|c s IH]; [reflexivity|].
  change (String c s ++ t) with (String c (s ++ t)). cbn [String.length]. now rewrite IH.
Qed.

Lemma string_length_repeat_char c n : String.length (PyStr.repeat_char c n) = n.
Proof. induction n as [|n IH]; [reflexivity|]. cbn. now rewrite IH. Qed.

Lemma string_length_substring_0 (s : string) (n : nat) :
  (n <= String.length s)%nat -> String.length (String.substring 0 n s) = n.
Proof.
  revert s. induction n as [|n IH]; intros s Hn.
  - now destruct s.
  - destruct s as [|c s]; cbn in Hn; [lia|]. cbn. rewrite IH; [reflexivity|lia].
Qed.

Lemma username_length_eq (first : string) (middle : option string)
    (last : string) (length : Z) :
  0 <= length ->
  String.length (username_from_name first middle last length) = Z.to_nat length.
Proof.
  intros Hlen. unfold username_from_name, PyStr.ljust, PyStr.slice_to.
  set (base := PyStr.filter PyStr.isalpha
                 (PyStr.lower (first ++ PyStr.opt_or_empty middle ++ last))).
  destruct (length <? 0) eqn:Hneg; [apply Z.ltb_lt in Hneg; lia|].
  rewrite string_length_app, string_length_repeat_char.
  rewrite string_length_substring_0 by lia. lia.
Qed.

(** X2. For a length that is not negative, [username_from_name] returns
    exactly [length] characters, whatever the names: a long name is cut,
    a short one padded. *)
Theorem username_has_requested_length (first : string) (middle : option string)
    (last : string) (length : Z) :
  0 <= length ->
  String.length (username_from_name first middle last length) = Z.to_nat length.
Proof. apply username_length_eq. Qed.

Lemma username_has_requested_length_witness :
  0 <= 8 /\
  username_from_name "Ann" (Some "B.") "O'Neil" 8 = "annbonei" /\
  username_from_name "Al" None "Wu" 8 = "alwuxxxx" /\
  String.length (username_from_name "Al" None "Wu" 8) = Z.to_nat 8.
Proof.
  split; [lia|]. split; [reflexivity|]. split; [reflexivity|].
  apply (username_has_requested_length "Al" None "Wu" 8). lia.
Defined.

Lemma bind_ok_inv {S A B} (m : M S A) (k : A -> M S B) s b s' :
  bind m k s = (Ok b, s') -> exists a s1, m s = (Ok a, s1) /\ k a s1 = (Ok b, s').
Proof.
  unfold bind. destruct (m s) as [[a|e] s1]; [|discriminate]. intros H. now exists a, s1.
Qed.

Lemma get_char_mem (seq : string) : forall i,
  (i < String.length seq)%nat -> PyStr.mem (PyStr.get_char seq i) seq = true.
Proof.
  induction seq as [|c seq IH]; intros i Hi; cbn in Hi; [lia|].
  destruct i as [|i].
  - cbn. now rewrite Ascii.eqb_refl.
  - cbn [PyStr.mem]. unfold PyStr.get_char in *. cbn [String.get].
    rewrite IH by lia. apply orb_true_r.
Qed.

Lemma randbelow_bound (n : nat) g i g' :
  (0 < n)%nat -> randbelow n g = (Ok i, g') -> (i < n)%nat.
Proof.
  intros Hn Hrun. unfold randbelow in Hrun. injection Hrun as <- _.
  apply Nat.mod_upper_bound. lia.
Qed.

(** What [choice_list] returns, when it returns: [k] characters of [seq]. *)
Lemma choice_list_inv (seq : string) : forall k g cs g',
  choice_list seq k g = (Ok cs, g') ->
  List.length cs = k /\ Forall (fun c => PyStr.mem c seq = true) cs.
Proof.
  induction k as [|k IH]; intros g cs g' Hrun; cbn [choice_list] in Hrun.
  - unfold ret in Hrun. injection Hrun as <- <-. split; [reflexivity|constructor].
  - apply bind_ok_inv in Hrun as (c & g1 & Hc & Hrun).
    apply bind_ok_inv in Hrun as (cs' & g2 & Hcs & Hrun).
    unfold ret in Hrun. injection Hrun as <- <-.
    apply IH in Hcs as [Hl Hall]. split; [cbn; now rewrite Hl|].
    constructor; [|exact Hall].
    unfold choice in Hc. destruct (String.length seq) as [|n] eqn:Hn; [discriminate|].
    apply bind_ok_inv in Hc as (i & g3 & Hi & Hc). unfold ret in Hc.
    injection Hc as <- <-. apply get_char_mem. rewrite Hn.
    apply randbelow_bound in Hi; [exact Hi|lia].
Qed.

Lemma swap_length (x : list ascii) i j : List.length (swap x i j) = List.length x.
Proof.
  unfold swap. destruct (x !! i); [|reflexivity]. destruct (x !! j); [|reflexivity].
  now rewrite !length_insert.
Qed.

(** Exchanging two places keeps the characters. *)
Lemma swap_elem_of (x : list ascii) i j c : c ∈ swap x i j <-> c ∈ x.
Proof.
  unfold swap. destruct (x !! i) as [a|] eqn:Hi; [|reflexivity].
  destruct (x !! j) as [b|] eqn:Hj; [|reflexivity].
  pose proof (lookup_lt_Some _ _ _ Hi) as Hli. pose proof (lookup_lt_Some _ _ _ Hj) as Hlj.
  rewrite !list_elem_of_lookup. split; intros [k Hk].
  - destruct (decide (k = j)) as [->|Hkj].
    + rewrite list_lookup_insert_eq in Hk by (rewrite length_insert; lia).
      injection Hk as <-. now exists i.
    + rewrite list_lookup_insert_ne in Hk by congruence.
      destruct (decide (k = i)) as [->|Hki].
      * rewrite list_lookup_insert_eq in Hk by lia. injection Hk as <-. now exists j.
      * rewrite list_lookup_insert_ne in Hk by congruence. now exists k.
  - destruct (decide (k = j)) as [->|Hkj].
    + assert (c = b) as -> by congruence.
      destruct (decide (i = j)) as [->|Hij].
      * exists j. rewrite list_lookup_insert_eq by (rewrite length_insert; lia). congruence.
      * exists i. rewrite list_lookup_insert_ne by congruence.
        now rewrite list_lookup_insert_eq by lia.
    + destruct (decide (k = i)) as [->|Hki].
      * assert (c = a) as -> by congruence. exists j.
        now rewrite list_lookup_insert_eq by (rewrite length_insert; lia).
      * exists k. rewrite list_lookup_insert_ne by congruence.
        now rewrite list_lookup_insert_ne by congruence.
Qed.

(** [random.shuffle] keeps the length and the characters of the list. *)
Lemma shuffle_from_inv i : forall x g y g',
  shuffle_from i x g = (Ok y, g') ->
  List.length y = List.length x /\ forall c, c ∈ y <-> c ∈ x.
Proof.
  induction i as [|i IH]; intros x g y g' Hrun; cbn [shuffle_from] in Hrun.
  - unfold ret in Hrun. injection Hrun as <- <-. now split.
  - apply bind_ok_inv in Hrun as (j & g1 & _ & Hrun).
    apply IH in Hrun as [Hl Hin]. split.
    + now rewrite Hl, swap_length.
    + intros c. now rewrite Hin, swap_elem_of.
Qed.

Lemma has_join (p : ascii -> bool) (l : list ascii) :
  has p (PyStr.join l) = true <-> exists c, c ∈ l /\ p c = true.
Proof.
  induction l as [|a l IH]; cbn.
  - split; [discriminate|]. intros (c & Hc & _). now apply elem_of_nil in Hc.
  - rewrite orb_true_iff, IH. split.
    + intros [Ha|(c & Hc & Hp)]; [exists a|exists c]; split; auto; [left|now right].
    + intros (c & Hc & Hp). apply elem_of_cons in Hc as [->|Hc]; [now left|].
      right. now exists c.
Qed.

Lemma all_mem (p : ascii -> bool) (s : string) c :
  PyStr.all p s = true -> PyStr.mem c s = true -> p c = true.
Proof.
  induction s as [|a s IH]; cbn; [discriminate|].
  intros Hall Hmem. apply andb_true_iff in Hall as [Ha Hall].
  apply orb_true_iff in Hmem as [Heq|Hmem]; [|now apply IH].
  apply Ascii.eqb_eq in Heq. now subst.
Qed.

(** The parts of a password run, when it returns. *)
Lemma password_inv (length mu ml md ms : Z) (specials : string) g pwd g' :
  password length mu ml md ms specials g = (Ok pwd, g') ->
  exists a b c d e y,
    List.length a = Z.to_nat mu /\ Forall (fun x => PyStr.mem x ascii_uppercase = true) a /\
    List.length b = Z.to_nat ml /\ Forall (fun x => PyStr.mem x ascii_lowercase = true) b /\
    List.length c = Z.to_nat md /\ Forall (fun x => PyStr.mem x digits = true) c /\
    List.length d = Z.to_nat ms /\ Forall (fun x => PyStr.mem x specials = true) d /\
    List.length e = Z.to_nat (length - Z.of_nat (List.length (a ++ b ++ c ++ d)%list)) /\
    Forall (fun x => PyStr.mem x (ascii_letters ++ digits ++ specials) = true) e /\
    pwd = PyStr.join y /\
    List.length y = List.length ((a ++ b ++ c ++ d) ++ e)%list /\
    (forall x, x ∈ y <-> x ∈ ((a ++ b ++ c ++ d) ++ e)%list).
Proof.
  intros Hrun. unfold password in Hrun.
  apply bind_ok_inv in Hrun as (a & g1 & Ha & Hrun). apply choice_list_inv in Ha as [Hla Ha].
  apply bind_ok_inv in Hrun as (b & g2 & Hb & Hrun). apply choice_list_inv in Hb as [Hlb Hb].
  apply bind_ok_inv in Hrun as (c & g3 & Hc & Hrun). apply choice_list_inv in Hc as [Hlc Hc].
  apply bind_ok_inv in Hrun as (d & g4 & Hd & Hrun). apply choice_list_inv in Hd as [Hld Hd].
  apply bind_ok_inv in Hrun as (e & g5 & He & Hrun). apply choice_list_inv in He as [Hle He].
  apply bind_ok_inv in Hrun as (y & g6 & Hy & Hrun).
  unfold ret in Hrun. injection Hrun as <- <-.
  apply shuffle_from_inv in Hy as [Hly Hy].
  exists a, b, c, d, e, y. repeat (split; [assumption|]). split; [reflexivity|]. now split.
Qed.

Lemma password_length_eq (length mu ml md ms : Z) (specials : string)
    (g g' : Entropy) (pwd : string) :
  password length mu ml md ms specials g = (Ok pwd, g') ->
  Z.of_nat (String.length pwd)
  = Z.max length (Z.max 0 mu + Z.max 0 ml + Z.max 0 md + Z.max 0 ms).
Proof.
  intros Hrun.
  apply password_inv in Hrun
    as (a & b & c & d & e & y & Hla & _ & Hlb & _ & Hlc & _ & Hld & _ & Hle & _ & -> & Hly & _).
  rewrite string_length_join, Hly. rewrite length_app, Hle.
  rewrite !length_app, Hla, Hlb, Hlc, Hld. lia.
Qed.

(** X3. A password that is returned has [length] characters, and never
    fewer than the minimum counts ask for: with the defaults, four
    characters for every [length] below four. *)
Theorem password_has_length (length mu ml md ms : Z) (specials : string)
    (g g' : Entropy) (pwd : string) :
  password length mu ml md ms specials g = (Ok pwd, g') ->
  Z.of_nat (String.length pwd)
  = Z.max length (Z.max 0 mu + Z.max 0 ml + Z.max 0 md + Z.max 0 ms).
Proof. apply password_length_eq. Qed.

Lemma password_has_length_witness :
  exists pwd g',
    password 2 1 1 1 1 "!@#$%" (repeating 7) = (Ok pwd, g') /\
    Z.of_nat (String.length pwd) = 4.
Proof.
  destruct (password_total 2 (repeating 7)) as (pwd & g' & Hrun).
  exists pwd, g'. split; [exact Hrun|].
  apply (password_has_length 2 1 1 1 1 "!@#$%" (repeating 7) g' pwd Hrun).
Defined.

(** X4. A password that is returned holds, for each class whose minimum
    count is at least one, a character of that class: an upper-case
    letter, a lower-case letter, a digit, a character of [specials]; the
    shuffle loses none of them. *)
Theorem password_has_required_classes (length mu ml md ms : Z) (specials : string)
    (g g' : Entropy) (pwd : string) :
  password length mu ml md ms specials g = (Ok pwd, g') ->
  (1 <= mu -> has PyStr.is_upper pwd = true) /\
  (1 <= ml -> has PyStr.is_lower pwd = true) /\
  (1 <= md -> has PyStr.is_digit pwd = true) /\
  (1 <= ms -> has (fun c => PyStr.mem c specials) pwd = true).
Proof.
  intros Hrun.
  apply password_inv in Hrun
    as (a & b & c & d & e & y & Hla & Ha & Hlb & Hb & Hlc & Hc & Hld & Hd & _ & _ & -> & _ & Hy).
  assert (Hpick : forall (l : list ascii) (seq : string) (p : ascii -> bool) (n : Z),
             List.length l = Z.to_nat n -> Forall (fun x => PyStr.mem x seq = true) l ->
             (forall x, PyStr.mem x seq = true -> p x = true) ->
             (forall x, x ∈ l -> x ∈ ((a ++ b ++ c ++ d) ++ e)%list) ->
             1 <= n -> has p (PyStr.join y) = true).
  { intros l seq p n Hl Hall Hp Hsub Hn. destruct l as [|x l]; [cbn in Hl; lia|].
    apply has_join. exists x. split.
    - apply Hy, Hsub. now left.
    - apply Hp. now inversion Hall. }
  split; [|split; [|split]].
  - apply (Hpick a ascii_uppercase _ mu Hla Ha).
    + intros x. apply all_mem. reflexivity.
    + intros x Hx. rewrite !elem_of_app. auto.
  - apply (Hpick b ascii_lowercase _ ml Hlb Hb).
    + intros x. apply all_mem. reflexivity.
    + intros x Hx. rewrite !elem_of_app. auto.
  - apply (Hpick c digits _ md Hlc Hc).
    + intros x Hx. exact Hx.
    + intros x Hx. rewrite !elem_of_app. auto.
  - apply (Hpick d specials _ ms Hld Hd).
    + intros x Hx. exact Hx.
    + intros x Hx. rewrite !elem_of_app. auto.
Qed.

Lemma password_has_required_classes_witness :
  exists pwd g',
    password 12 1 1 1 1 "!@#$%" (repeating 7) = (Ok pwd, g') /\
    has PyStr.is_upper pwd = true /\ has PyStr.is_lower pwd = true /\
    has PyStr.is_digit pwd = true /\ has (fun c => PyStr.mem c "!@#$%") pwd = true.
Proof.
  destruct (password_total 12 (repeating 7)) as (pwd & g' & Hrun).
  exists pwd, g'. split; [exact Hrun|].
  destruct (password_has_required_classes 12 1 1 1 1 "!@#$%" (repeating 7) g' pwd Hrun)
    as (Hu & Hl & Hd & Hs).
  repeat split; [apply Hu|apply Hl|apply Hd|apply Hs]; lia.
Defined.

(** X5. With an empty [specials] and a minimum of at least one special
    character, [password] raises [IndexError]: the draw from the empty
    string fails, whatever the length asked for. *)
Theorem password_empty_specials (length mu ml md ms : Z) (g : Entropy) :
  1 <= ms ->
  exists g', password length mu ml md ms "" g = (Raise IndexError, g').
Proof.
  intros Hms. unfold password.
  destruct (choices_total ascii_uppercase mu g) as (a & g1 & Ha); [simpl; lia|].
  rewrite (bind_ok _ _ _ _ _ Ha).
  destruct (choices_total ascii_lowercase ml g1) as (b & g2 & Hb); [simpl; lia|].
  rewrite (bind_ok _ _ _ _ _ Hb).
  destruct (choices_total digits md g2) as (c & g3 & Hc); [simpl; lia|].
  rewrite (bind_ok _ _ _ _ _ Hc).
  exists g3. apply bind_raise. unfold choices.
  destruct (Z.to_nat ms) as [|k] eqn:Hk; [lia|]. reflexivity.
Qed.

Lemma password_empty_specials_witness :
  1 <= 1 /\ fst (password 12 1 1 1 1 "" (repeating 7)) = Raise IndexError.
Proof.
  split; [lia|].
  destruct (password_empty_specials 12 1 1 1 1 (repeating 7)) as (g' & Hrun); [lia|].
  now rewrite Hrun.
Defined.

(** X6. The record of [generate_employee_with_credentials] has exactly the
    seven keys of an employee; its employee id is a non-zero digit followed
    by [id_length - 1] digits, its user name has [username_length]
    characters when that is not negative, and its password has
    [pwd_length] characters, four when fewer are asked for. *)
Theorem generated_employee_fields (id_length username_length pwd_length : Z)
    (g : Entropy) :
  exists (rec : gmap string string) (g' : Entropy),
    generate_employee_with_credentials id_length username_length pwd_length g
    = (Ok rec, g') /\
    dom rec = ({[ "first_name"; "middle_name"; "last_name"; "employee_id";
                  "username"; "password"; "confirm_password" ]} : gset string) /\
    (exists c rest, rec !! "employee_id" = Some (String c rest) /\
                    PyStr.is_nonzero_digit c = true /\
                    PyStr.all PyStr.is_digit rest = true /\
                    String.length rest = Z.to_nat (id_length - 1)) /\
    (0 <= username_length ->
     exists u, rec !! "username" = Some u /\ String.length u = Z.to_nat username_length) /\
    (exists p, rec !! "password" = Some p /\
               Z.of_nat (String.length p) = Z.max pwd_length 4).
Proof.
  unfold generate_employee_with_credentials, first_name, middle_name, last_name.
  unfold bind at 1. cbn [faker_name].
  unfold bind at 1. cbn [faker_name].
  unfold bind at 1. cbn [faker_name].
  match goal with |- context [bind (employee_id _ _) _ ?g0] =>
    destruct (employee_id_shape id_length g0) as (c & rest & g1 & He & Hc & Hrest & Hlen) end.
  rewrite (bind_ok _ _ _ _ _ He).
  destruct (password_total pwd_length g1) as (pwd & g2 & Hp).
  rewrite (bind_ok _ _ _ _ _ Hp).
  eexists _, g2. split; [reflexivity|]. split; [|split; [|split]].
  - rewrite !dom_insert_L, dom_empty_L. set_solver.
  - exists c, rest. split; [|now repeat split].
    now rewrite !lookup_insert_ne by discriminate; rewrite lookup_insert_eq.
  - intros Hu. eexists. split.
    + now rewrite !lookup_insert_ne by discriminate; rewrite lookup_insert_eq.
    + now apply username_length_eq.
  - exists pwd. split.
    + now rewrite !lookup_insert_ne by discriminate; rewrite lookup_insert_eq.
    + rewrite (password_length_eq _ _ _ _ _ _ _ _ _ Hp). lia.
Qed.

(** ** utilities/readproperties.py, the file, the cache and the booleans *)

Import ReadConfigRest.

Lemma get_env_unset section key fallback (var : string) s :
  environ s !! var = None ->
  get section key fallback (Some var) s = _get_raw section key fallback s.
Proof.
  intros Hv. unfold get, env_var_given.
  destruct (PyStr.truthy var); [|reflexivity].
  unfold bind at 1, getenv. now rewrite Hv.
Qed.

Lemma _get_raw_available section key fallback s p :
  available s = Some p ->
  _get_raw section key fallback s
  = (Ok (parser_get p section key fallback), set_config (Some p) s).
Proof.
  unfold available, _get_raw, bind, _ensure_loaded. intros Hav.
  destruct (_config s) as [p0|] eqn:Hc.
  - injection Hav as ->. rewrite Hc. destruct s; cbn in *. now subst.
  - rewrite Hav. reflexivity.
Qed.

Lemma _get_raw_missing_file section key fallback s :
  available s = None ->
  exists msg, _get_raw section key fallback s = (Raise (FileNotFoundError msg), s).
Proof.
  unfold available, _get_raw, bind, _ensure_loaded. intros Hav.
  destruct (_config s) as [p0|] eqn:Hc; [discriminate|]. rewrite Hav.
  eexists. reflexivity.
Qed.

Lemma lookup_unset (k : ReadConfig.Key) (s : Sys) :
  override_unset k s ->
  lookup k s =
    (v <- _get_raw "common info" (option_name k) None ;; ret (PyStr.opt_or_empty v)) s.
Proof.
  unfold override_unset. intros Hu.
  destruct k; cbn [lookup consulted_var option_name] in *;
    unfold get_user_login_url, get_user_email, get_user_password,
      get_search_item_name, get_emp_initial_name, bind;
    rewrite ?get_env_unset by exact Hu; reflexivity.
Qed.

Lemma lookup_file_eq (k : ReadConfig.Key) (s : Sys) (p : Parser) :
  override_unset k s ->
  available s = Some p ->
  lookup k s = (Ok (PyStr.opt_or_empty (file_value p k)), set_config (Some p) s).
Proof.
  intros Hu Hav. rewrite (lookup_unset k s Hu). unfold bind.
  now rewrite (_get_raw_available _ _ _ _ _ Hav).
Qed.

Lemma lookup_no_file (k : ReadConfig.Key) (s : Sys) :
  override_unset k s ->
  available s = None ->
  exists msg, lookup k s = (Raise (FileNotFoundError msg), s).
Proof.
  intros Hu Hav. rewrite (lookup_unset k s Hu).
  destruct (_get_raw_missing_file "common info" (option_name k) None s Hav) as (msg & Hraw).
  exists msg. unfold bind. now rewrite Hraw.
Qed.

(** X7. With the variable its getter consults unset, a setting is read
    from the file, which is loaded at the first read and cached.  A
    setting the file does not hold reads as the empty string, not as an
    error; a value the file holds is returned as it is when it has no
    [%] in it, the character [configparser] interpolates on. *)
Theorem lookup_reads_file (k : ReadConfig.Key) (s : Sys) (p : Parser) :
  override_unset k s ->
  available s = Some p ->
  _config (snd (lookup k s)) = Some p /\
  (file_value p k = None -> fst (lookup k s) = Ok "") /\
  (forall v, file_value p k = Some v -> PyStr.mem "%" v = false ->
             fst (lookup k s) = Ok v).
Proof.
  intros Hu Hav. rewrite (lookup_file_eq k s p Hu Hav). cbn [fst snd _config set_config].
  split; [reflexivity|]. split; [now intros ->|]. now intros v -> _.
Qed.

Lemma lookup_reads_file_witness :
  let s := ConfigSpec.sample_sys "UNRELATED" "x" in
  override_unset UserEmail s /\ available s = Some ConfigSpec.sample_config /\
  file_value ConfigSpec.sample_config UserEmail = None /\
  fst (lookup UserEmail s) = Ok "" /\
  fst (lookup LoginUrl s) = Ok "http://file.example/login" /\
  _config (snd (lookup LoginUrl s)) = Some ConfigSpec.sample_config.
Proof.
  intros s.
  assert (Hu : override_unset UserEmail s) by reflexivity.
  assert (Hav : available s = Some ConfigSpec.sample_config) by reflexivity.
  destruct (lookup_reads_file UserEmail s ConfigSpec.sample_config Hu Hav) as (_ & Hempty & _).
  destruct (lookup_reads_file LoginUrl s ConfigSpec.sample_config eq_refl Hav)
    as (Hcache & _ & Hvalue).
  split; [exact Hu|]. split; [exact Hav|]. split; [reflexivity|].
  split; [apply Hempty; reflexivity|]. split; [|exact Hcache].
  apply Hvalue; reflexivity.
Defined.

(** X8. With the variable its getter consults unset, no file cached and no
    file on disk, every getter raises [FileNotFoundError], and no file is
    cached afterwards either. *)
Theorem lookup_missing_file (k : ReadConfig.Key) (s : Sys) :
  override_unset k s ->
  available s = None ->
  (exists msg, fst (lookup k s) = Raise (FileNotFoundError msg)) /\
  _config (snd (lookup k s)) = None.
Proof.
  intros Hu Hav. destruct (lookup_no_file k s Hu Hav) as (msg & ->). cbn [fst snd].
  split; [now exists msg|].
  unfold available in Hav. now destruct (_config s).
Qed.

Lemma lookup_missing_file_witness :
  override_unset SearchItem PageSpec.empty_sys /\ available PageSpec.empty_sys = None /\
  (exists msg, fst (lookup SearchItem PageSpec.empty_sys) = Raise (FileNotFoundError msg)) /\
  _config (snd (lookup SearchItem PageSpec.empty_sys)) = None.
Proof.
  split; [exact I|]. split; [reflexivity|].
  apply (lookup_missing_file SearchItem PageSpec.empty_sys); [exact I|reflexivity].
Defined.

(** X9. Once a file is cached, what is written to the disk afterwards is
    not seen: every getter returns what it returned before the write. *)
Theorem lookup_ignores_disk_once_cached (k : ReadConfig.Key) (s : Sys) (p : Parser)
    (file : option Parser) :
  _config s = Some p ->
  fst (lookup k (write_config file s)) = fst (lookup k s).
Proof.
  intros Hc.
  assert (Hav : forall section key fb s0, _config s0 = Some p ->
            fst (_get_raw section key fb s0) = Ok (parser_get p section key fb)).
  { intros section key fb s0 H0. rewrite (_get_raw_available _ _ _ _ p); [reflexivity|].
    unfold available. now rewrite H0. }
  assert (Hget : forall section key fb ev s0, _config s0 = Some p ->
            fst (get section key fb ev s0) =
            match env_var_given ev with
            | Some v => match environ s0 !! v with
                        | Some x => Ok (Some x)
                        | None => Ok (parser_get p section key fb)
                        end
            | None => Ok (parser_get p section key fb)
            end).
  { intros section key fb ev s0 H0. unfold get.
    destruct (env_var_given ev) as [v|]; [|now apply Hav].
    unfold bind, getenv. destruct (environ s0 !! v); [reflexivity|now apply Hav]. }
  assert (Hw : _config (write_config file s) = Some p) by exact Hc.
  destruct k; cbn [lookup];
    unfold get_user_login_url, get_user_email, get_user_password,
      get_search_item_name, get_emp_initial_name, bind;
    match goal with
    | |- context [get ?a ?b ?c ?d (write_config file s)] =>
        pose proof (Hget a b c d _ Hw) as H1; pose proof (Hget a b c d _ Hc) as H2;
        destruct (get a b c d (write_config file s)) as [[o1|e1] s1];
        destruct (get a b c d s) as [[o2|e2] s2]
    end; cbn in *; congruence.
Qed.

Lemma lookup_ignores_disk_once_cached_witness :
  let s := snd (lookup LoginUrl (ConfigSpec.sample_sys "UNRELATED" "x")) in
  _config s = Some ConfigSpec.sample_config /\
  fst (lookup LoginUrl (write_config None s)) = Ok "http://file.example/login".
Proof.
  intros s. split; [reflexivity|].
  rewrite (lookup_ignores_disk_once_cached LoginUrl s ConfigSpec.sample_config None eq_refl).
  reflexivity.
Defined.

(** X10. [reload] drops the cache before it looks at the disk.  With a
    file there, the cache holds that file afterwards, whatever it held
    before, and the getters read it: the empty string for a setting it
    does not hold, the value as it is for one without [%].  With no file,
    [reload] raises [FileNotFoundError] and no file is cached any more, so
    a getter that worked before the call raises after it. *)
Theorem reload_replaces_cache (path : option (option Parser)) (s : Sys) :
  match (match path with Some file => file | None => config_ini s end) with
  | Some p =>
      fst (reload path s) = Ok tt /\
      _config (snd (reload path s)) = Some p /\
      forall k, override_unset k s ->
        (file_value p k = None -> fst (lookup k (snd (reload path s))) = Ok "") /\
        (forall v, file_value p k = Some v -> PyStr.mem "%" v = false ->
                   fst (lookup k (snd (reload path s))) = Ok v)
  | None =>
      (exists msg, fst (reload path s) = Raise (FileNotFoundError msg)) /\
      _config (snd (reload path s)) = None /\
      (path = None -> forall k, override_unset k s ->
         exists msg, fst (lookup k (snd (reload path s))) = Raise (FileNotFoundError msg))
  end.
Proof.
  destruct (match path with Some file => file | None => config_ini s end) as [p|] eqn:Hfile.
  - assert (Hr : reload path s = (Ok tt, set_config (Some p) s)).
    { unfold reload, bind, _ensure_loaded_at. cbn [_config set_config config_ini].
      now rewrite Hfile. }
    rewrite Hr. cbn [fst snd]. split; [reflexivity|]. split; [reflexivity|].
    intros k Hu.
    assert (Hav : available (set_config (Some p) s) = Some p) by reflexivity.
    rewrite (lookup_file_eq k (set_config (Some p) s) p Hu Hav). cbn [fst].
    split; [now intros ->|now intros v -> _].
  - assert (Hr : exists msg,
               reload path s = (Raise (FileNotFoundError msg), set_config None s)).
    { unfold reload, bind, _ensure_loaded_at. cbn [_config set_config config_ini].
      rewrite Hfile. eexists. reflexivity. }
    destruct Hr as (msg0 & Hr). rewrite Hr. cbn [fst snd].
    split; [now exists msg0|]. split; [reflexivity|].
    intros -> k Hu.
    assert (Hav : available (set_config None s) = None) by exact Hfile.
    destruct (lookup_no_file k (set_config None s) Hu Hav) as (msg & ->).
    now exists msg.
Qed.

Lemma reload_replaces_cache_witness :
  let s := write_config None (snd (lookup LoginUrl (ConfigSpec.sample_sys "UNRELATED" "x"))) in
  fst (lookup LoginUrl s) = Ok "http://file.example/login" /\
  (exists msg, fst (reload None s) = Raise (FileNotFoundError msg)) /\
  _config (snd (reload None s)) = None /\
  exists msg, fst (lookup LoginUrl (snd (reload None s))) = Raise (FileNotFoundError msg).
Proof.
  intros s. split; [reflexivity|].
  pose proof (reload_replaces_cache None s) as H. cbn [config_ini s write_config] in H.
  destruct H as (Hr & Hc & Hl). split; [exact Hr|]. split; [exact Hc|].
  apply Hl; reflexivity.
Defined.

(** X11. With its override variable set, [get_bool] does not return what
    the variable holds: it reads the option from the cached file, whatever
    the variable says, and raises when no file is cached yet, since the
    override kept [get] from loading one. *)
Theorem get_bool_ignores_override_value (section key : string) (fallback : option bool)
    (var : string) (s : Sys) (v : string) :
  PyStr.truthy var = true ->
  environ s !! var = Some v ->
  get_bool section key fallback (Some var) s =
    (match _config s with
     | Some p => res_map Some (getboolean p section key)
     | None => Raise OtherException
     end, s).
Proof.
  intros Hvar Hv. unfold get_bool.
  rewrite (bind_ok _ _ _ _ _ (get_env_set section key None var s v Hvar Hv)).
  now destruct (_config s).
Qed.

Lemma get_bool_ignores_override_value_witness :
  let cached := {| environ := {[ "HEADLESS" := "false" ]};
                   config_ini := Some flags_config; _config := Some flags_config |} in
  let fresh := {| environ := {[ "HEADLESS" := "false" ]};
                  config_ini := Some flags_config; _config := None |} in
  PyStr.truthy "HEADLESS" = true /\
  environ cached !! "HEADLESS" = Some "false" /\
  fst (get_bool "common info" "headless" None (Some "HEADLESS") cached) = Ok (Some true) /\
  fst (get_bool "common info" "headless" None (Some "HEADLESS") fresh) = Raise OtherException.
Proof.
  intros cached fresh. split; [reflexivity|]. split; [reflexivity|]. split.
  - now rewrite (get_bool_ignores_override_value "common info" "headless" None "HEADLESS"
                   cached "false" eq_refl eq_refl).
  - now rewrite (get_bool_ignores_override_value "common info" "headless" None "HEADLESS"
                   fresh "false" eq_refl eq_refl).
Defined.

(** ** pageobjects/base_page.py, navigation *)

Lemma new_events_same_trace {B} (w w1 w' : World B) :
  trace w1 = trace w -> new_events w w' = new_events w1 w'.
Proof. intros H. unfold new_events. now rewrite H. Qed.

Lemma new_events_refl {B} (w : World B) : new_events w w = [].
Proof. apply new_events_app. now rewrite app_nil_r. Qed.

(** The navigations of [open_url]: one, to the URL it was given, when that
    URL is valid; none otherwise. *)
Lemma open_url_navigations {B} (self : Page B) (url : string)
    (wait_for_locator : option Locator) (timeout : option Z)
    (w w' : World B) (r : Res unit) :
  open_url self url wait_for_locator timeout w = (r, w') ->
  navigations (new_events w w') = (if valid_url url then 1 else 0)%nat /\
  forall ev, In ev (new_events w w') -> is_navigation ev = true -> ev_call ev = CGet url.
Proof.
  intros Hrun. destruct (valid_url url) eqn:Hurl.
  - apply valid_url_inv in Hurl as [H1 H2].
    unfold open_url in Hrun. rewrite H1, H2 in Hrun.
    destruct wait_for_locator as [loc|]; unfold_calls Hrun;
      repeat next_branch Hrun; log_of_run Hrun; (split; [reflexivity|]);
      intros ev Hin Hnav; in_log Hin; subst ev; reflexivity || discriminate Hnav.
  - assert (Hw : w' = w).
    { unfold open_url, valid_url in *.
      destruct (PyStr.truthy url); cbn in *;
        [rewrite Hurl in Hrun; cbn in Hrun|]; unfold raise in Hrun; now injection Hrun. }
    subst w'. rewrite new_events_refl. split; [reflexivity|]. intros ev [].
Qed.

(** X12. Whatever [open] is given, it calls [driver.get] at most once, and
    only on a URL that starts with [http://] or [https://]: a base without
    a scheme is rejected before anything is asked of the browser. *)
Theorem open_navigates_to_http_only {B} (self : Page B) (path_or_url : string)
    (wait_for_locator : option Locator) (timeout : option Z)
    (w w' : World B) (r : Res unit) :
  open self path_or_url wait_for_locator timeout w = (r, w') ->
  (navigations (new_events w w') <= 1)%nat /\
  forall ev, In ev (new_events w w') -> is_navigation ev = true ->
    exists url, ev_call ev = CGet url /\ valid_url url = true.
Proof.
  intros Hrun.
  assert (Hmain : forall url (w1 : World B),
             trace w1 = trace w ->
             open_url self url wait_for_locator timeout w1 = (r, w') ->
             (navigations (new_events w w') <= 1)%nat /\
             forall ev, In ev (new_events w w') -> is_navigation ev = true ->
               exists url, ev_call ev = CGet url /\ valid_url url = true).
  { intros url w1 Htr Hopen. rewrite (new_events_same_trace w w1 w' Htr).
    apply open_url_navigations in Hopen as [Hn Hev].
    destruct (valid_url url) eqn:Hurl.
    - split; [lia|]. intros ev Hin Hnav. exists url. split; [now apply Hev|exact Hurl].
    - split; [lia|]. intros ev Hin Hnav. exfalso.
      unfold navigations in Hn. apply length_zero_iff_nil in Hn.
      assert (Hf : In ev (List.filter is_navigation (new_events w1 w')))
        by (apply List.filter_In; now split).
      rewrite Hn in Hf. destruct Hf. }
  unfold open in Hrun. destruct (PyStr.startswith_any url_schemes path_or_url).
  - now apply (Hmain path_or_url w).
  - destruct (resolve_base_total w) as (base & s' & Hbase).
    rewrite (bind_ok _ _ _ _ _ Hbase) in Hrun.
    destruct (negb (PyStr.truthy base)).
    + unfold raise in Hrun. injection Hrun as <- <-.
      rewrite (new_events_app _ _ []) by (cbn [trace]; now rewrite app_nil_r).
      split; [cbn; lia|]. intros ev [].
    + cbv zeta in Hrun. eapply Hmain; [|exact Hrun]. reflexivity.
Qed.

Lemma open_navigates_to_http_only_witness :
  let s := {| ReadConfig.environ := {[ "ADMIN_LOGIN_URL" := "hr.example" ]};
              ReadConfig.config_ini := None; ReadConfig._config := None |} in
  let run := open (scripted_page calm) "/pim" None None (world0 s) in
  (exists msg, fst run = Raise (ValueError msg)) /\
  navigations (new_events (world0 s) (snd run)) = 0%nat /\
  (navigations (new_events (world0 s) (snd run)) <= 1)%nat.
Proof.
  intros s run. split; [eexists; reflexivity|]. split; [reflexivity|].
  apply (open_navigates_to_http_only (scripted_page calm) "/pim" None None
           (world0 s) (snd run) (fst run) eq_refl).
Defined.

(** ** pageobjects/base_page.py, the basic actions *)

Import Pages.

(** X13. [click] runs its script only after the native click raised a
    [WebDriverException]: when the native click returned, the log is the
    wait and the click; a fault of the native click of any other class is
    the fault of [click], with no script run. *)
Theorem click_script_only_after_fault {B} (self : Page B) (loc : Locator)
    (timeout : option Z) (w w' : World B) (r : Res unit) :
  click self loc timeout w = (r, w') ->
  (forall ev, In ev (new_events w w') -> is_script ev = true ->
     exists el e, In {| ev_call := CClick el; ev_result := Raise e |} (new_events w w') /\
                  is_WebDriverException e = true) /\
  (forall el e, In {| ev_call := CClick el; ev_result := Raise e |} (new_events w w') ->
     is_WebDriverException e = false ->
     r = Raise e /\ List.filter is_script (new_events w w') = []) /\
  (forall el, In {| ev_call := CClick el; ev_result := Ok VNone |} (new_events w w') ->
     r = Ok tt /\ List.length (new_events w w') = 2%nat).
Proof.
  intros Hrun.
  unfold click, find_clickable, _wait in Hrun. unfold_calls Hrun.
  repeat next_branch Hrun; log_of_run Hrun; (split; [|split]).
  all: try (intros ev Hin Hs; in_log Hin; subst ev; try discriminate Hs;
            solve [eexists _, _; split; [right; left; reflexivity|assumption]]).
  all: try (intros ? ? Hin He; in_log Hin; try discriminate Hin;
            solve [injection Hin as <- <-; first [congruence | now split]]).
  all: try (intros ? Hin; in_log Hin; try discriminate Hin; solve [now split]).
Qed.

Lemma click_script_only_after_fault_witness :
  let run := click (scripted_page calm) login_button None (world0 empty_sys) in
  In {| ev_call := CClick 7%N; ev_result := Ok VNone |}
     (new_events (world0 empty_sys) (snd run)) /\
  fst run = Ok tt /\ List.length (new_events (world0 empty_sys) (snd run)) = 2%nat.
Proof.
  intros run. split; [right; left; reflexivity|].
  destruct (click_script_only_after_fault (scripted_page calm) login_button None
              (world0 empty_sys) (snd run) (fst run) eq_refl) as (_ & _ & H).
  apply (H 7%N). right. left. reflexivity.
Defined.

(** X14. [clear] is best effort: a [WebDriverException] of the native clear
    and every fault of the select-all-and-delete keys are swallowed.  A
    fault of [clear] is the fault of the wait for the element, or a fault
    of the native clear that is no [WebDriverException]; the keys are sent
    only after the native clear raised a [WebDriverException]. *)
Theorem clear_is_best_effort {B} (self : Page B) (loc : Locator)
    (timeout : option Z) (w w' : World B) (r : Res unit) :
  clear self loc timeout w = (r, w') ->
  (forall e, r = Raise e ->
     exists c, last (new_events w w') = Some {| ev_call := c; ev_result := Raise e |} /\
       match c with
       | CWaitUntil _ _ _ => True
       | CClear _ => is_WebDriverException e = false
       | _ => False
       end) /\
  (forall el keys res,
     In {| ev_call := CSendKeys el keys; ev_result := res |} (new_events w w') ->
     keys = [CONTROL; Text "a"; DELETE] /\
     exists e, In {| ev_call := CClear el; ev_result := Raise e |} (new_events w w') /\
               is_WebDriverException e = true).
Proof.
  intros Hrun.
  unfold clear, clear_element, find_visible, _wait in Hrun. unfold_calls Hrun.
  repeat next_branch Hrun; log_of_run Hrun; split.
  all: try (intros ? He0; try discriminate He0;
            solve [injection He0 as <-; eexists; split; [reflexivity|]; cbn; trivial]).
  all: try (intros ? ? ? Hin; in_log Hin; try discriminate Hin;
            solve [injection Hin as <- <- <-; split; [reflexivity|];
                   eexists; split; [right; left; reflexivity|assumption]]).
Qed.

Lemma clear_is_best_effort_witness :
  let stuck := {| faults := fun c => match c with
                                     | CClear _ => Some WebDriverException
                                     | CSendKeys _ _ => Some OtherException
                                     | _ => None
                                     end;
                  field_value := Some "old"; rendered := ""; matches := [7%N] |} in
  let run := clear (scripted_page stuck) name_field None (world0 empty_sys) in
  fst run = Ok tt /\
  In {| ev_call := CSendKeys 7%N [CONTROL; Text "a"; DELETE];
        ev_result := Raise OtherException |} (new_events (world0 empty_sys) (snd run)).
Proof.
  intros stuck run.
  destruct (clear_is_best_effort (scripted_page stuck) name_field None
              (world0 empty_sys) (snd run) (fst run) eq_refl) as [Hfault _].
  split; [reflexivity|]. right. right. left. reflexivity.
Defined.

(** X15. A [type] that returns has delivered the text once, after the
    select-all-and-delete keys if the native clear had to be replaced, and
    before [ENTER], which is sent only under [send_enter]; with
    [clear_first=False] nothing is cleared and no other key is sent. *)
Theorem type_delivers_text_once {B} (self : Page B) (loc : Locator) (text : string)
    (timeout : option Z) (clear_first send_enter : bool) (w w' : World B) :
  type self loc text timeout clear_first send_enter w = (Ok tt, w') ->
  exists cleared,
    keys_delivered (new_events w w')
    = (cleared ++ [Text text] ++ (if send_enter then [ENTER] else []))%list /\
    (cleared = [] \/ cleared = [CONTROL; Text "a"; DELETE]) /\
    (clear_first = false ->
     cleared = [] /\ List.filter is_clear (new_events w w') = []).
Proof.
  intros Hrun.
  unfold type, clear_element, find_visible, _wait in Hrun.
  destruct clear_first, send_enter; unfold_calls Hrun;
    repeat next_branch Hrun; try discriminate Hrun;
    injection Hrun as <-;
    (erewrite new_events_app by (cbn [trace]; rewrite <- ?app_assoc; reflexivity));
    cbn [app keys_delivered ev_call ev_result];
    first [ exists []; split; [reflexivity|]; split; [now left|];
            first [discriminate | intros _; now split]
          | exists [CONTROL; Text "a"; DELETE]; split; [reflexivity|]; split; [now right|];
            discriminate ].
Qed.

Lemma type_delivers_text_once_witness :
  let run := type (scripted_page obstructed) name_field "Ann" None false true
               (world0 empty_sys) in
  fst run = Ok tt /\
  keys_delivered (new_events (world0 empty_sys) (snd run)) = [Text "Ann"; ENTER] /\
  List.filter is_clear (new_events (world0 empty_sys) (snd run)) = [].
Proof.
  intros run.
  assert (Hrun : type (scripted_page obstructed) name_field "Ann" None false true
                   (world0 empty_sys) = (Ok tt, snd run)) by reflexivity.
  destruct (type_delivers_text_once _ _ _ _ _ _ _ _ Hrun) as (cleared & Hk & _ & Hc).
  destruct (Hc eq_refl) as [-> Hnone].
  split; [reflexivity|]. split; [exact Hk|exact Hnone].
Defined.

(** ** Trimmed values *)

Lemma rstrip_cons (chars : string) c s :
  PyStr.rstrip chars (String c s) =
    match PyStr.rstrip chars s with
    | EmptyString => if PyStr.mem c chars then EmptyString else String c EmptyString
    | String a r => String c (String a r)
    end.
Proof. reflexivity. Qed.

Lemma rstrip_idempotent (chars s : string) :
  PyStr.rstrip chars (PyStr.rstrip chars s) = PyStr.rstrip chars s.
Proof.
  induction s as [|c s IH]; [reflexivity|]. rewrite rstrip_cons.
  destruct (PyStr.rstrip chars s) as [|a r] eqn:Hr.
  - destruct (PyStr.mem c chars) eqn:Hc; [reflexivity|]. rewrite rstrip_cons. cbn. now rewrite Hc.
  - rewrite rstrip_cons, IH. reflexivity.
Qed.

Lemma rstrip_keeps_head (chars : string) c s :
  PyStr.mem c chars = false ->
  exists r, PyStr.rstrip chars (String c s) = String c r.
Proof.
  intros Hc. cbn [PyStr.rstrip]. destruct (PyStr.rstrip chars s) as [|a r].
  - rewrite Hc. now exists "".
  - now exists (String a r).
Qed.

Lemma lstrip_head (chars s : string) :
  PyStr.lstrip chars s = "" \/
  exists c t, PyStr.lstrip chars s = String c t /\ PyStr.mem c chars = false.
Proof.
  induction s as [|c s IH]; [now left|]. cbn [PyStr.lstrip].
  destruct (PyStr.mem c chars) eqn:Hc; [exact IH|]. right. now exists c, s.
Qed.

(** [strip] changes nothing in a string it has returned. *)
Lemma strip_idempotent (s : string) : PyStr.strip (PyStr.strip s) = PyStr.strip s.
Proof.
  unfold PyStr.strip.
  destruct (lstrip_head PyStr.whitespace s) as [->|(c & t & -> & Hc)]; [reflexivity|].
  destruct (rstrip_keeps_head PyStr.whitespace c t Hc) as (r & Hr).
  rewrite Hr. cbn [PyStr.lstrip]. rewrite Hc. rewrite <- Hr.
  apply rstrip_idempotent.
Qed.

Lemma get_text_inv {B} (self : Page B) loc timeout (w w' : World B) v :
  get_text self loc timeout w = (Ok v, w') ->
  exists t, v = PyStr.strip t.
Proof.
  intros Hrun. unfold get_text in Hrun.
  apply bind_ok_inv in Hrun as (el & w1 & _ & Hrun).
  apply bind_ok_inv in Hrun as (t & w2 & _ & Hrun).
  unfold ret in Hrun. injection Hrun as <- _. now exists (PyStr.or_else t "").
Qed.

(** X16. What [get_text] returns has no white space at either end, so the
    [strip] that [capture_text] applies to it changes nothing:
    [capture_text] is [get_text] on the dashboard title, fault for fault
    and call for call. *)
Theorem capture_text_is_get_text {B} (self : Page B) (w : World B) :
  UserDashboardPage.capture_text self w
  = get_text self UserDashboardPage._dashboard_txt None w /\
  forall loc timeout v w', get_text self loc timeout w = (Ok v, w') -> PyStr.strip v = v.
Proof.
  split.
  - unfold UserDashboardPage.capture_text, bind.
    destruct (get_text self UserDashboardPage._dashboard_txt None w) as [[v|e] w1] eqn:Hrun;
      [|reflexivity].
    apply get_text_inv in Hrun as (t & ->). unfold ret. now rewrite strip_idempotent.
  - intros loc timeout v w' Hrun. apply get_text_inv in Hrun as (t & ->).
    apply strip_idempotent.
Qed.


Lemma step_trimmed el text ap s ev s' :
  step el text ap s ev = Some s' -> trimmed (phase_value s) -> trimmed (phase_value s').
Proof.
  assert (Hrec : forall x, trimmed (phase_value (recorded text ap (PyStr.strip x)))).
  { intros x. unfold recorded. destruct (accepted text ap (PyStr.strip x));
      apply strip_idempotent. }
  assert (Hemp : trimmed (phase_value (recorded text ap ""))).
  { unfold recorded. now destruct (accepted text ap ""). }
  destruct s; cbn [step phase_value]; intros Hstep Htr;
    repeat match type of Hstep with
           | context [if ?b then _ else _] => destruct b
           | context [match ?x with _ => _ end] => destruct x
           end;
    try discriminate Hstep; injection Hstep as <-; cbn [phase_value];
    first [ apply Hrec | exact Hemp | exact Htr | apply strip_idempotent ].
Qed.

Lemma feed_trimmed el text ap evs : forall s s',
  feed el text ap s evs = Some s' -> trimmed (phase_value s) -> trimmed (phase_value s').
Proof.
  induction evs as [|ev evs IH]; intros s s' Hfeed Htr; cbn [feed] in Hfeed.
  - now injection Hfeed as <-.
  - destruct (step el text ap s ev) as [s1|] eqn:Hstep; [|discriminate].
    apply (IH s1 s' Hfeed). now apply (step_trimmed el text ap s ev).
Qed.

(** X17. What [type_and_verify] returns has no white space at either end;
    so it never returns a text that has some, under [allow_partial] or
    not, however the field took the keys. *)
Theorem type_and_verify_returns_trimmed {B} (self : Page B) (loc : Locator)
    (text : string) (timeout : option Z) (clear_first allow_partial send_enter : bool)
    (w w' : World B) (v : string) :
  type_and_verify self loc text timeout clear_first allow_partial send_enter w = (Ok v, w') ->
  PyStr.strip v = v /\ (PyStr.strip text <> text -> v <> text).
Proof.
  intros Hrun. apply type_and_verify_protocol in Hrun as [(el & Hfeed) _].
  assert (Hv : PyStr.strip v = v).
  { apply (feed_trimmed _ _ _ _ _ _ Hfeed). reflexivity. }
  split; [exact Hv|]. intros Hpad ->. exact (Hpad Hv).
Qed.

Lemma type_and_verify_returns_trimmed_witness :
  let run := type_and_verify (scripted_page padded_field) name_field "ab " (Some 1)
               true true false (world0 empty_sys) in
  fst run = Ok "ab" /\ PyStr.strip "ab" = "ab" /\ "ab" <> "ab ".
Proof.
  intros run.
  assert (Hrun : type_and_verify (scripted_page padded_field) name_field "ab " (Some 1)
                   true true false (world0 empty_sys) = (Ok "ab", snd run))
    by (vm_compute; reflexivity).
  destruct (type_and_verify_returns_trimmed _ _ _ _ _ _ _ _ _ _ Hrun) as [Hv Hne].
  split; [reflexivity|]. split; [exact Hv|]. apply Hne. discriminate.
Defined.

(** ** A timeout that leaves no time *)

Lemma script_first_bind {B A} el text (m : M (World B) A) (k : A -> M (World B) string) :
  typing_only m -> (forall a, script_first el text (k a)) ->
  script_first el text (bind m k).
Proof.
  intros Hm Hk w r w' Hrun. unfold bind in Hrun.
  destruct (m w) as [[a|e] w1] eqn:Hmw;
    apply Hm in Hmw as (_ & evs1 & Htr1 & Hq1 & _).
  - apply Hk in Hrun as (typed & checked & Htr2 & Hq2 & Hv2 & Hres).
    exists (evs1 ++ typed)%list, checked. split; [|split; [|split]].
    + rewrite Htr2, Htr1. now rewrite <- !app_assoc.
    + apply Forall_app. now split.
    + exact Hv2.
    + exact Hres.
  - injection Hrun as <- <-. exists evs1, [].
    split; [now rewrite app_nil_r|]. split; [exact Hq1|]. split; [constructor|].
    discriminate.
Qed.

(** With no time to poll, the verification reads nothing before it runs
    the script. *)
Lemma verification_script_first {B} (self : Page B) el text timeout ap :
  timeout_or_default self timeout <= 0 ->
  script_first el text (verification (B:=B) self el text timeout ap).
Proof.
  intros Ht w r w' Hrun. unfold verification in Hrun. unfold bind at 1 in Hrun.
  cbn [time] in Hrun. unfold bind at 1, rounds in Hrun.
  cbn [type_and_verify_loop] in Hrun. unfold bind at 1 in Hrun. cbn [time] in Hrun.
  assert (Hlt : (clock w <? clock w + 1000 * timeout_or_default self timeout) = false)
    by (apply Z.ltb_ge; lia).
  rewrite Hlt in Hrun. unfold ret at 1 in Hrun.
  unfold try_except, bind at 1, d_execute_script, invoke in Hrun.
  destruct (drv_execute_script (driver self) set_value_script
              [ArgElement el; ArgStr text] (browser w)) as [[[[]|e] d] b] eqn:Hscript;
    cbn [res_map is_Exception] in Hrun.
  - unfold bind at 1, sleep in Hrun. cbn [clock trace browser sys] in Hrun.
    unfold bind at 1 in Hrun.
    match type of Hrun with
    | context [read_value self el ?w0] =>
        destruct (read_value self el w0) as [r2 w2] eqn:Hread
    end.
    apply read_value_spec in Hread as (_ & evs & Htr & Hpass & _).
    cbn [trace] in Htr.
    assert (Hw : w' = w2).
    { destruct r2 as [v|e]; cbn in Hrun; unfold ret in Hrun.
      - destruct (accepted text ap v); now injection Hrun.
      - now injection Hrun. }
    subst w2.
    exists [], ({| ev_call := CExecuteScript set_value_script [ArgElement el; ArgStr text];
                   ev_result := Ok VNone |} :: slept 120 :: evs).
    split; [|split; [constructor|split]].
    + rewrite Htr. now rewrite <- !app_assoc.
    + constructor; [reflexivity|]. constructor; [reflexivity|].
      now apply passive_verification.
    + intros v _. eexists _, _. reflexivity.
  - unfold ret in Hrun. injection Hrun as <- <-. cbn [trace].
    exists [], [{| ev_call := CExecuteScript set_value_script [ArgElement el; ArgStr text];
                   ev_result := Raise e |}].
    split; [reflexivity|]. split; [constructor|]. split.
    + constructor; [reflexivity|constructor].
    + intros v _. eexists _, _. reflexivity.
Qed.

(** X18. With a timeout of zero or less, [type_and_verify] never looks at
    what it typed before overwriting it: the first call it makes after
    the keys is the script that assigns the text, even when the field
    already holds that text. *)
Theorem type_and_verify_without_time {B} (self : Page B) (loc : Locator)
    (text : string) (timeout : option Z) (clear_first allow_partial send_enter : bool)
    (w w' : World B) (v : string) :
  timeout_or_default self timeout <= 0 ->
  type_and_verify self loc text timeout clear_first allow_partial send_enter w = (Ok v, w') ->
  exists el out rest,
    List.filter is_verification (new_events w w')
    = {| ev_call := CExecuteScript set_value_script [ArgElement el; ArgStr text];
         ev_result := out |} :: rest.
Proof.
  intros Ht Hrun. rewrite type_and_verify_unfold in Hrun. unfold bind at 1 in Hrun.
  destruct (find_visible self loc timeout w) as [[el|e] w1] eqn:Hfind; [|discriminate].
  assert (Hf : typing_only (find_visible self loc timeout))
    by now apply typing_only_invoke.
  apply Hf in Hfind as (_ & evs1 & Htr1 & Hq1 & _).
  assert (Hrest : script_first el text
            (try_except (e_click self el) is_WebDriverException (fun _ => ret tt) ;;;
             (if clear_first then clear_element self el else ret tt) ;;;
             e_send_keys self el [Text text] ;;;
             (if send_enter then e_send_keys self el [ENTER] else ret tt) ;;;
             try_except (e_send_keys self el [TAB]) is_Exception (fun _ => ret tt) ;;;
             verification (B:=B) self el text timeout allow_partial)).
  { apply script_first_bind.
    { apply typing_only_try; [now apply typing_only_invoke|].
      intros _. apply typing_only_ret. }
    intros _. apply script_first_bind.
    { apply typing_only_if; [apply typing_only_clear_element|apply typing_only_ret]. }
    intros _. apply script_first_bind; [now apply typing_only_invoke|].
    intros _. apply script_first_bind.
    { apply typing_only_if; [now apply typing_only_invoke|apply typing_only_ret]. }
    intros _. apply script_first_bind.
    { apply typing_only_try; [now apply typing_only_invoke|].
      intros _. apply typing_only_ret. }
    intros _. now apply verification_script_first. }
  apply Hrest in Hrun as (typed & checked & Htr2 & Hq2 & Hv2 & Hres).
  destruct (Hres v eq_refl) as (out & rest & Hchecked).
  assert (Htr : trace w' = (trace w ++ (evs1 ++ typed) ++ checked)%list)
    by (rewrite Htr2, Htr1; now rewrite <- !app_assoc).
  rewrite (new_events_app _ _ _ Htr).
  rewrite filter_verification; [|apply Forall_app; now split|exact Hv2].
  now exists el, out, rest.
Qed.

Lemma type_and_verify_without_time_witness :
  let run := type_and_verify (scripted_page calm) name_field "Dashboard" (Some 0)
               true false false (world0 empty_sys) in
  timeout_or_default (scripted_page calm) (Some 0) <= 0 /\
  fst run = Ok "Dashboard" /\
  exists el out rest,
    List.filter is_verification (new_events (world0 empty_sys) (snd run))
    = {| ev_call := CExecuteScript set_value_script [ArgElement el; ArgStr "Dashboard"];
         ev_result := out |} :: rest.
Proof.
  intros run.
  assert (Hrun : type_and_verify (scripted_page calm) name_field "Dashboard" (Some 0)
                   true false false (world0 empty_sys) = (Ok "Dashboard", snd run))
    by (vm_compute; reflexivity).
  assert (Ht : timeout_or_default (scripted_page calm) (Some 0) <= 0)
    by (unfold timeout_or_default; lia).
  split; [exact Ht|]. split; [reflexivity|].
  apply (type_and_verify_without_time _ _ _ _ _ _ _ _ _ _ Ht Hrun).
Defined.

Lemma get_element_list_loop_lookups {B} (self : Page B) (loc : Locator) (end_ : Z) :
  forall (n : nat) (w w' : World B) (r : Res (list WebElement)),
    (Z.to_nat (end_ - clock w) < n)%nat ->
    get_element_list_loop self n loc end_ w = (r, w') ->
    exists evs, trace w' = (trace w ++ evs)%list /\
      150 * Z.of_nat (List.length (List.filter is_lookup evs))
      <= Z.max 0 (end_ - clock w) + 149.
Proof.
  induction n as [|n IH]; intros w w' r Hn Hrun; [lia|].
  cbn [get_element_list_loop] in Hrun. unfold bind at 1 in Hrun. cbn [time] in Hrun.
  destruct (clock w <? end_) eqn:Hlt.
  - apply Z.ltb_lt in Hlt. unfold bind at 1, d_find_elements, invoke in Hrun.
    destruct (drv_find_elements (driver self) loc (browser w)) as [[[els|e] d] b] eqn:Hfind.
    + destruct els as [|el els].
      * unfold bind at 1, sleep in Hrun. cbn [clock trace browser sys res_map] in Hrun.
        apply IH in Hrun as (evs & Htr & Hcount); [|cbn [clock]; lia].
        cbn [trace clock] in Htr, Hcount.
        exists (found loc (Ok []) :: slept 150 :: evs). split.
        -- rewrite Htr. now rewrite <- !app_assoc.
        -- cbn [List.filter is_lookup found slept ev_call List.length].
           rewrite Nat2Z.inj_succ. lia.
      * unfold ret in Hrun. injection Hrun as <- <-. eexists [_].
        split; [reflexivity|]. cbn. lia.
    + injection Hrun as <- <-. eexists [_]. split; [reflexivity|]. cbn. lia.
  - unfold ret in Hrun. injection Hrun as <- <-.
    exists []. split; [now rewrite app_nil_r|]. cbn. lia.
Qed.

(** X19. [get_element_list] asks the page at most once per 150 ms of its
    timeout, rounded up; with a timeout of zero or less it does not ask at
    all and returns the empty list, whatever the page holds. *)
Theorem get_element_list_lookups_bounded {B} (self : Page B) (loc : Locator)
    (timeout : option Z) (w w' : World B) (r : Res (list WebElement)) :
  get_element_list self loc timeout w = (r, w') ->
  Z.of_nat (List.length (List.filter is_lookup (new_events w w')))
  <= (Z.max 0 (1000 * timeout_or_default self timeout) + 149) / 150 /\
  (timeout_or_default self timeout <= 0 -> r = Ok [] /\ new_events w w' = []).
Proof.
  intros Hrun. unfold get_element_list in Hrun. unfold bind at 1 in Hrun.
  cbn [time] in Hrun. split.
  - apply get_element_list_loop_lookups in Hrun as (evs & Htr & Hcount);
      [|unfold rounds; lia].
    rewrite (new_events_app _ _ _ Htr). apply Z.div_le_lower_bound; [lia|].
    replace (clock w + 1000 * timeout_or_default self timeout - clock w)
      with (1000 * timeout_or_default self timeout) in Hcount by lia.
    exact Hcount.
  - intros Ht. unfold rounds in Hrun. cbn [get_element_list_loop] in Hrun.
    unfold bind at 1 in Hrun. cbn [time] in Hrun.
    assert (Hlt : (clock w <? clock w + 1000 * timeout_or_default self timeout) = false)
      by (apply Z.ltb_ge; lia).
    rewrite Hlt in Hrun. unfold ret in Hrun. injection Hrun as <- <-.
    split; [reflexivity|apply new_events_refl].
Qed.

Lemma get_element_list_lookups_bounded_witness :
  let run := get_element_list (scripted_page calm) login_button (Some 0) (world0 empty_sys) in
  timeout_or_default (scripted_page calm) (Some 0) <= 0 /\
  matches calm = [7%N] /\
  fst run = Ok [] /\ new_events (world0 empty_sys) (snd run) = [].
Proof.
  intros run.
  assert (Ht : timeout_or_default (scripted_page calm) (Some 0) <= 0)
    by (unfold timeout_or_default; lia).
  split; [exact Ht|]. split; [reflexivity|].
  destruct (get_element_list_lookups_bounded (scripted_page calm) login_button (Some 0)
              (world0 empty_sys) (snd run) (fst run) eq_refl) as [_ H].
  exact (H Ht).
Defined.

(** ** pageobjects/pim_page.py *)

(** [wait_for_toast] never raises: it returns the trimmed text of the
    toast when [get_text] returns, and [None] exactly when [get_text]
    raises, be it the timeout of the wait or any other fault. *)
Lemma wait_for_toast_never_raises {B} (self : Page B) (timeout : option Z) (w : World B) :
  exists (o : option string) (w' : World B),
    PIMPage.wait_for_toast self timeout w = (Ok o, w') /\
    w' = snd (get_text self PIMPage._toast timeout w) /\
    match fst (get_text self PIMPage._toast timeout w) with
    | Ok txt => o = Some txt
    | Raise _ => o = None
    end.
Proof.
  unfold PIMPage.wait_for_toast, try_except, bind.
  destruct (get_text self PIMPage._toast timeout w) as [[txt|e] w1]; cbn.
  - now exists (Some txt), w1.
  - now exists None, w1.
Qed.

Lemma element_value_inv {B} (self : Page B) loc timeout (w w' : World B) v :
  element_value self loc timeout w = (Ok v, w') ->
  exists el o,
    v = PyStr.strip (PyStr.opt_or_empty o) /\
    trace w' =
      (trace w ++
       [ {| ev_call := CWaitUntil visibility_of_element_located loc
                         (timeout_or_default self timeout);
            ev_result := Ok (VElement el) |};
         {| ev_call := CGetAttribute el "value"; ev_result := Ok (VOptStr o) |} ])%list.
Proof.
  intros Hrun. unfold element_value, find_visible, _wait in Hrun. unfold_calls Hrun.
  next_reply Hrun; [|discriminate]. next_reply Hrun; [|discriminate].
  injection Hrun as <- <-. cbn [trace]. eexists _, _.
  split; [reflexivity|]. now rewrite <- app_assoc.
Qed.

(** X20. What [enter_emp_id] returns is not the id it typed: it is the
    trimmed value attribute of the field, read after the typing through a
    lookup of its own, and the empty string when the field has no value. *)
Theorem enter_emp_id_returns_field_value {B} (self : Page B) (empid : string)
    (w w' : World B) (v : string) :
  PIMPage.enter_emp_id self empid w = (Ok v, w') ->
  exists typed el o,
    In (Text empid) (keys_delivered typed) /\
    new_events w w' =
      (typed ++
       [ {| ev_call := CWaitUntil visibility_of_element_located PIMPage._empid
                         (default_timeout self);
            ev_result := Ok (VElement el) |};
         {| ev_call := CGetAttribute el "value"; ev_result := Ok (VOptStr o) |} ])%list /\
    v = PyStr.strip (PyStr.opt_or_empty o) /\
    (o = None -> v = "").
Proof.
  intros Hrun. unfold PIMPage.enter_emp_id in Hrun.
  apply bind_ok_inv in Hrun as ([] & w1 & Htype & Hread).
  apply element_value_inv in Hread as (el & o & Hv & Htr2).
  assert (Htyped : exists typed, trace w1 = (trace w ++ typed)%list /\
                                 In (Text empid) (keys_delivered typed)).
  { exists (new_events w w1).
    assert (Hk := Htype).
    unfold type, clear_element, find_visible, _wait in Htype. unfold_calls Htype.
    repeat next_branch Htype; try discriminate Htype; injection Htype as <-;
      (erewrite new_events_app by (cbn [trace]; rewrite <- ?app_assoc; reflexivity));
      cbn [trace app keys_delivered ev_call ev_result In];
      (split; [now rewrite <- ?app_assoc|tauto]). }
  destruct Htyped as (typed & Htr1 & Hin).
  exists typed, el, o. split; [exact Hin|]. split; [|split; [exact Hv|]].
  - apply new_events_app. rewrite Htr2, Htr1. now rewrite <- app_assoc.
  - intros ->. subst v. reflexivity.
Qed.

Lemma enter_emp_id_returns_field_value_witness :
  let auto_id := {| faults := fun _ => None; field_value := Some " 0042 ";
                    rendered := ""; matches := [7%N] |} in
  let run := PIMPage.enter_emp_id (scripted_page auto_id) "777" (world0 empty_sys) in
  fst run = Ok "0042" /\
  exists typed el o,
    In (Text "777") (keys_delivered typed) /\
    new_events (world0 empty_sys) (snd run) =
      (typed ++
       [ {| ev_call := CWaitUntil visibility_of_element_located PIMPage._empid 8;
            ev_result := Ok (VElement el) |};
         {| ev_call := CGetAttribute el "value"; ev_result := Ok (VOptStr o) |} ])%list /\
    "0042" = PyStr.strip (PyStr.opt_or_empty o) /\
    (o = None -> "0042" = "").
Proof.
  intros auto_id run.
  assert (Hrun : PIMPage.enter_emp_id (scripted_page auto_id) "777" (world0 empty_sys)
                 = (Ok "0042", snd run)) by (vm_compute; reflexivity).
  split; [reflexivity|].
  apply (enter_emp_id_returns_field_value _ _ _ _ _ Hrun).
Defined.

Lemma keys_delivered_app (evs1 evs2 : list Event) :
  keys_delivered (evs1 ++ evs2) = (keys_delivered evs1 ++ keys_delivered evs2)%list.
Proof.
  induction evs1 as [|ev evs1 IH]; [reflexivity|]. cbn [app keys_delivered].
  destruct (ev_call ev); try exact IH. destruct (ev_result ev); [|exact IH].
  now rewrite IH, app_assoc.
Qed.

(** The log of [type]: no wait for a clickable element, and the text among
    the keys delivered when it returns. *)
Lemma type_log {B} (self : Page B) loc text timeout (clear_first send_enter : bool)
    (w w1 : World B) (r : Res unit) :
  type self loc text timeout clear_first send_enter w = (r, w1) ->
  exists typed, trace w1 = (trace w ++ typed)%list /\
    List.filter is_clickable_wait typed = [] /\
    (r = Ok tt -> In (Text text) (keys_delivered typed)).
Proof.
  intros Htype. exists (new_events w w1).
  unfold type, clear_element, find_visible, _wait in Htype. unfold_calls Htype.
  destruct clear_first, send_enter;
    repeat next_branch Htype; injection Htype as <- <-;
    (erewrite new_events_app by (cbn [trace]; rewrite <- ?app_assoc; reflexivity));
    cbn [trace app keys_delivered ev_call ev_result In];
    (split; [now rewrite <- ?app_assoc|]); (split; [reflexivity|]);
    first [discriminate | intros _; tauto].
Qed.

(** X21. [search_by_employee_id] waits for the search button only once the
    id has been typed: a log that holds a wait for a clickable element
    holds, before it, the delivery of the id. *)
Theorem search_clicks_after_typing {B} (self : Page B) (id : string)
    (w w' : World B) (r : Res unit) :
  PIMPage.search_by_employee_id self id w = (r, w') ->
  List.filter is_clickable_wait (new_events w w') <> [] ->
  exists typed clicked,
    new_events w w' = (typed ++ clicked)%list /\
    In (Text id) (keys_delivered typed) /\
    List.filter is_clickable_wait typed = [] /\
    exists res,
      hd_error clicked =
        Some {| ev_call := CWaitUntil element_to_be_clickable
                             PIMPage._emp_info_search_button (default_timeout self);
                ev_result := res |}.
Proof.
  intros Hrun Hwait. unfold PIMPage.search_by_employee_id, bind in Hrun.
  destruct (type self PIMPage._emp_info_empid id None true false w) as [[[]|e] w1] eqn:Htype;
    apply type_log in Htype as (typed & Htr1 & Hnone & Hkeys).
  - exists typed, (new_events w1 w'). specialize (Hkeys eq_refl).
    unfold click, find_clickable, _wait in Hrun. unfold_calls Hrun.
    repeat next_branch Hrun; injection Hrun as <- <-;
      (erewrite (new_events_app w1) by (cbn [trace]; rewrite <- ?app_assoc; reflexivity));
      (split; [apply new_events_app; cbn [trace]; rewrite Htr1;
               now rewrite <- ?app_assoc|]);
      (split; [exact Hkeys|]); (split; [exact Hnone|]); eexists; reflexivity.
  - injection Hrun as <- <-. rewrite (new_events_app _ _ _ Htr1) in Hwait.
    now rewrite Hnone in Hwait.
Qed.

Lemma search_clicks_after_typing_witness :
  let run := PIMPage.search_by_employee_id (scripted_page calm) "0042" (world0 empty_sys) in
  List.filter is_clickable_wait (new_events (world0 empty_sys) (snd run)) <> [] /\
  exists typed clicked,
    new_events (world0 empty_sys) (snd run) = (typed ++ clicked)%list /\
    In (Text "0042") (keys_delivered typed) /\
    List.filter is_clickable_wait typed = [] /\
    exists res,
      hd_error clicked =
        Some {| ev_call := CWaitUntil element_to_be_clickable
                             PIMPage._emp_info_search_button 8;
                ev_result := res |}.
Proof.
  intros run.
  assert (Hw : List.filter is_clickable_wait (new_events (world0 empty_sys) (snd run)) <> [])
    by (vm_compute; discriminate).
  split; [exact Hw|].
  apply (search_clicks_after_typing (scripted_page calm) "0042" (world0 empty_sys)
           (snd run) (fst run) eq_refl Hw).
Defined.
